(** * Telco churn data validation: a shallow embedding of
    [src/src/utils/validate_data.py] ([validate_telco_data]).

    A pandas data frame is modelled column-major, as pandas stores it: an
    ordered list of (column name, column of cells).  A cell holds a Python
    string, int, float (a rational number; every float of this code is only
    compared against bounds or other cells) or a null ([None] / [NaN]).

    The function mutates the caller's data frame ([df[col] = ...]), so it is
    modelled in a state monad whose state is the data frame; a Python
    exception ends the computation and keeps the state reached so far. *)

From Stdlib Require Import String List Bool ZArith QArith Lia Ascii.
Import ListNotations.
Open Scope string_scope.
Open Scope list_scope.

(** ** Data model *)

Inductive Cell : Type :=
| CStr (s : string)
| CInt (z : Z)
| CFloat (q : Q)
| CNull.

Definition Column := list Cell.
Definition DataFrame := list (string * Column).

(** [df.columns] *)
Definition columns (df : DataFrame) : list string := map fst df.

(** [c in l] for a list of strings. *)
Definition mem (c : string) (l : list string) : bool := existsb (String.eqb c) l.

(** Python exceptions this code can raise. [AmbiguousColumn c]: with a
    duplicated column name [c], [df[c]] is a DataFrame, and the next pandas
    call of Mode B on it ([not ....all()], [pd.to_numeric], a comparison)
    raises.  Great Expectations (Mode A) gets the same DataFrame from its
    own [df[c]] and does not always raise on it (not on a dataset without
    rows, for one); the Mode A results below are stated for columns present
    once, or for calls that return, or for a string in a numeric column,
    where the call raises in either case. *)
Inductive PyError : Type :=
| KeyError (k : string)
| AmbiguousColumn (k : string)
| TypeError.

(** ValidationResult: [(passed, failed_expectations)]. *)
Definition ValidationResult := (bool * list string)%type.

(** ** The state/exception monad *)

Inductive Outcome (A : Type) : Type :=
| Ok (a : A) (df : DataFrame)
| Err (e : PyError) (df : DataFrame).
Arguments Ok {A} a df.
Arguments Err {A} e df.

Definition M (A : Type) : Type := DataFrame -> Outcome A.

Definition ret {A} (a : A) : M A := fun df => Ok a df.
Definition raise {A} (e : PyError) : M A := fun df => Err e df.
Definition bind {A B} (m : M A) (k : A -> M B) : M B :=
  fun df => match m df with
            | Ok a df' => k a df'
            | Err e df' => Err e df'
            end.
Definition get : M DataFrame := fun df => Ok df df.

(** The data frame an outcome leaves behind. *)
Definition final_frame {A} (o : Outcome A) : DataFrame :=
  match o with Ok _ d => d | Err _ d => d end.

(** A computation that only reads the data frame. *)
Definition read_only {A} (m : M A) : Prop := forall df, final_frame (m df) = df.

(** A computation that does not see the columns [extra] appended to the
    data frame: it gives the same outcome, with [extra] still appended. *)
Definition ignores_suffix {A} (extra : DataFrame) (m : M A) : Prop :=
  forall df, m (df ++ extra) = match m df with
                               | Ok a d => Ok a (d ++ extra)
                               | Err e d => Err e (d ++ extra)
                               end.

Notation "x <- m ;; k" := (bind m (fun x => k))
  (at level 61, m at next level, right associativity).

(** ** pandas primitives *)

(** [df[c]] (read). *)
Definition getitem (c : string) : M Column :=
  fun df => match filter (fun p => String.eqb (fst p) c) df with
            | [(_, v)] => Ok v df
            | [] => Err (KeyError c) df
            | _ => Err (AmbiguousColumn c) df
            end.

(** [df[c] = v] (write): replaces an existing column in place, appends a
    new one otherwise. *)
Definition set_column (df : DataFrame) (c : string) (v : Column) : DataFrame :=
  if mem c (columns df)
  then map (fun p => if String.eqb (fst p) c then (c, v) else p) df
  else df ++ [(c, v)].

Definition setitem (c : string) (v : Column) : M unit :=
  fun df => Ok tt (set_column df c v).

(** [Series.isin(values)] on one cell: only a string equal to one of the
    (string) values is in; a null or a number never is. *)
Definition isin (vs : list string) (x : Cell) : bool :=
  match x with
  | CStr s => mem s vs
  | _ => false
  end.

(** The numeric value of a cell, for ints and floats. *)
Definition num_of (x : Cell) : option Q :=
  match x with
  | CInt z => Some (inject_Z z)
  | CFloat q => Some q
  | _ => None
  end.

(** [series < b], [series > b], [series >= b] on one cell: a null compares
    [False], a number compares numerically, a string against a number
    raises [TypeError] ([None] here). *)
Definition cmp_cell (p : Q -> bool) (x : Cell) : option bool :=
  match x with
  | CNull => Some false
  | CInt z => Some (p (inject_Z z))
  | CFloat q => Some (p q)
  | CStr _ => None
  end.

Fixpoint cmp_series (p : Q -> bool) (v : Column) : option (list bool) :=
  match v with
  | [] => Some []
  | x :: rest =>
      match cmp_cell p x, cmp_series p rest with
      | Some b, Some bs => Some (b :: bs)
      | _, _ => None
      end
  end.

(** [(series <op> b).any()] *)
Definition series_any (p : Q -> bool) (v : Column) : M bool :=
  match cmp_series p v with
  | Some bs => ret (existsb (fun b => b) bs)
  | None => raise TypeError
  end.

Definition lt_bound (b : Q) : Q -> bool := fun q => negb (Qle_bool b q).
Definition gt_bound (b : Q) : Q -> bool := fun q => negb (Qle_bool q b).

(** ** Mode A: the Great Expectations suite

    The legacy [PandasDataset] API of Great Expectations, as this code uses
    it.  Each [ge_df.expect_...] call is evaluated at once, with exceptions
    not caught (the library's default for interactive calls); [validate()]
    then evaluates the suite again, grouped by column, catching exceptions
    as failed results; [results["success"]] holds iff every result does. *)

Inductive Expectation : Type :=
| expect_column_to_exist (column : string)
| expect_column_values_to_not_be_null (column : string)
| expect_column_values_to_be_in_set (column : string) (value_set : list string)
| expect_column_values_to_be_between (column : string) (min_value max_value : option Q)
| expect_column_pair_values_A_to_be_greater_than_B
    (column_A column_B : string) (or_equal : bool) (mostly : option Q).

Definition expectation_type (e : Expectation) : string :=
  match e with
  | expect_column_to_exist _ => "expect_column_to_exist"
  | expect_column_values_to_not_be_null _ => "expect_column_values_to_not_be_null"
  | expect_column_values_to_be_in_set _ _ => "expect_column_values_to_be_in_set"
  | expect_column_values_to_be_between _ _ _ => "expect_column_values_to_be_between"
  | expect_column_pair_values_A_to_be_greater_than_B _ _ _ _ =>
      "expect_column_pair_values_A_to_be_greater_than_B"
  end.

(** The ["column"] kwarg used by [validate()] to group the suite; a pair
    expectation has none and goes to ["_nocolumn"]. *)
Definition expectation_column (e : Expectation) : string :=
  match e with
  | expect_column_to_exist c
  | expect_column_values_to_not_be_null c
  | expect_column_values_to_be_in_set c _
  | expect_column_values_to_be_between c _ _ => c
  | expect_column_pair_values_A_to_be_greater_than_B _ _ _ _ => "_nocolumn"
  end.

Definition is_null (x : Cell) : bool :=
  match x with CNull => true | _ => false end.

Definition count_true (bs : list bool) : nat := length (filter (fun b => b) bs).

(** [_calc_map_expectation_success]: the fraction [success/nonnull] (a
    float in Python, an exact rational here) against [mostly]; with no
    value to check the expectation succeeds. *)
Definition calc_map_expectation_success
    (success_count nonnull_count : nat) (mostly : option Q) : bool :=
  if Nat.ltb 0 nonnull_count then
    match mostly with
    | Some m => Qle_bool m (Z.of_nat success_count # Pos.of_nat nonnull_count)
    | None => Nat.eqb (nonnull_count - success_count) 0
    end
  else true.

Fixpoint map_checked {A : Type} (f : A -> option bool) (l : list A)
  : option (list bool) :=
  match l with
  | [] => Some []
  | x :: rest =>
      match f x, map_checked f rest with
      | Some b, Some bs => Some (b :: bs)
      | _, _ => None
      end
  end.

Definition lift_type {A : Type} (o : option A) : M A :=
  match o with Some a => ret a | None => raise TypeError end.

(** [is_between] of [expect_column_values_to_be_between] (inclusive bounds);
    a string against numeric bounds raises [TypeError]. *)
Definition is_between (min_value max_value : option Q) (x : Cell) : option bool :=
  match x with
  | CStr _ => None
  | CNull => Some false
  | _ =>
      match num_of x with
      | Some q =>
          Some (match min_value with Some lo => Qle_bool lo q | None => true end
                && match max_value with Some hi => Qle_bool q hi | None => true end)
      | None => Some false
      end
  end.

(** [column_A >= column_B] (or [>]) on one row, as pandas compares two
    object cells: numbers compare numerically, strings lexicographically, a
    string against a number raises.  A null gives [False], as a [NaN] of a
    float column does; a [None] kept in an object column and compared from
    a numeric column raises instead, a case this cell-level model does not
    tell apart (the column's dtype is not modelled), so no theorem below
    relies on a row with exactly one null. *)
Definition pair_greater (or_equal : bool) (ab : Cell * Cell) : option bool :=
  let (a, b) := ab in
  match a, b with
  | CNull, _ | _, CNull => Some false
  | CStr s, CStr t =>
      Some (if or_equal then String.leb t s else String.ltb t s)
  | CStr _, _ | _, CStr _ => None
  | _, _ =>
      match num_of a, num_of b with
      | Some qa, Some qb =>
          Some (if or_equal then Qle_bool qb qa else negb (Qle_bool qa qb))
      | _, _ => Some false
      end
  end.

Definition not_null (x : Cell) : bool := negb (is_null x).

(** One expectation on the data frame.  Column map expectations skip null
    values, except the not-null one; the pair expectation skips the rows
    where both values are null ([ignore_row_if="both_values_are_missing"]). *)
Definition eval_expectation (e : Expectation) : M bool :=
  match e with
  | expect_column_to_exist c =>
      df <- get ;; ret (mem c (columns df))
  | expect_column_values_to_not_be_null c =>
      v <- getitem c ;;
      ret (calc_map_expectation_success
             (count_true (map not_null v)) (length v) None)
  | expect_column_values_to_be_in_set c vs =>
      v <- getitem c ;;
      let nn := filter not_null v in
      ret (calc_map_expectation_success
             (count_true (map (isin vs) nn)) (length nn) None)
  | expect_column_values_to_be_between c lo hi =>
      v <- getitem c ;;
      let nn := filter not_null v in
      bs <- lift_type (map_checked (is_between lo hi) nn) ;;
      ret (calc_map_expectation_success (count_true bs) (length nn) None)
  | expect_column_pair_values_A_to_be_greater_than_B a b or_equal mostly =>
      va <- getitem a ;;
      vb <- getitem b ;;
      let rows := filter (fun r => negb (is_null (fst r) && is_null (snd r)))
                         (combine va vb) in
      bs <- lift_type (map_checked (pair_greater or_equal) rows) ;;
      ret (calc_map_expectation_success (count_true bs) (length rows) mostly)
  end.

(** Lines 72-77: the cross-column consistency check. *)
Definition consistency_expectation : Expectation :=
  expect_column_pair_values_A_to_be_greater_than_B
    "TotalCharges" "MonthlyCharges" true (Some (95 # 100)).

(** Lines 37-77, in order. *)
Definition telco_suite : list Expectation :=
  [ expect_column_to_exist "customerID";
    expect_column_values_to_not_be_null "customerID";
    expect_column_to_exist "gender";
    expect_column_to_exist "Partner";
    expect_column_to_exist "Dependents";
    expect_column_to_exist "PhoneService";
    expect_column_to_exist "InternetService";
    expect_column_to_exist "Contract";
    expect_column_to_exist "tenure";
    expect_column_to_exist "MonthlyCharges";
    expect_column_to_exist "TotalCharges";
    expect_column_values_to_be_in_set "gender" ["Male"; "Female"];
    expect_column_values_to_be_in_set "Partner" ["Yes"; "No"];
    expect_column_values_to_be_in_set "Dependents" ["Yes"; "No"];
    expect_column_values_to_be_in_set "PhoneService" ["Yes"; "No"];
    expect_column_values_to_be_in_set "Contract"
      ["Month-to-month"; "One year"; "Two year"];
    expect_column_values_to_be_in_set "InternetService" ["DSL"; "Fiber optic"; "No"];
    expect_column_values_to_be_between "tenure" (Some 0) (Some 120);
    expect_column_values_to_be_between "MonthlyCharges" (Some 0) (Some 200);
    expect_column_values_to_be_between "TotalCharges" (Some 0) None;
    expect_column_values_to_not_be_null "tenure";
    expect_column_values_to_not_be_null "MonthlyCharges";
    consistency_expectation ].

(** The interactive calls: the first exception escapes. *)
Fixpoint run_interactive (es : list Expectation) : M unit :=
  match es with
  | [] => ret tt
  | e :: rest => _ <- eval_expectation e ;; run_interactive rest
  end.

(** [validate()] groups the suite by column, in order of first appearance. *)
Definition first_occurrences (ks : list string) : list string :=
  fold_left (fun acc k => if mem k acc then acc else acc ++ [k]) ks [].

Definition group_by_column (es : list Expectation) : list Expectation :=
  flat_map (fun k => filter (fun e => String.eqb (expectation_column e) k) es)
           (first_occurrences (map expectation_column es)).

(** One result of [validate()]: an exception is caught as a failure. *)
Definition eval_caught (e : Expectation) : M (string * bool) :=
  fun df => match eval_expectation e df with
            | Ok b df' => Ok (expectation_type e, b) df'
            | Err _ df' => Ok (expectation_type e, false) df'
            end.

Fixpoint validate_suite (es : list Expectation) : M (list (string * bool)) :=
  match es with
  | [] => ret []
  | e :: rest => r <- eval_caught e ;; rs <- validate_suite rest ;; ret (r :: rs)
  end.

(** Lines 21-95: Mode A. *)
Definition ge_validate : M ValidationResult :=
  _ <- run_interactive telco_suite ;;
  results <- validate_suite (group_by_column telco_suite) ;;
  let failed_expectations := map fst (filter (fun r => negb (snd r)) results) in
  if forallb snd results then ret (true, [])
  else ret (false, failed_expectations).

Section Validator.

(** The string-to-number parser of [pd.to_numeric] (pandas' own code), held
    abstract: [None] for a string it cannot parse. *)
Variable parse_numeric : string -> option Q.

(** [pd.to_numeric(..., errors="coerce")] on one cell: numbers and nulls are
    kept, a string is parsed, an unparseable one becomes null.  pandas also
    gives the whole column one dtype (an int [250] next to a float comes back
    as [250.0], an all-integer string column as int64); the model keeps each
    cell's value, which is all that this code's checks compare. *)
Definition to_numeric_cell (x : Cell) : Cell :=
  match x with
  | CStr s => match parse_numeric s with
              | Some q => CFloat q
              | None => CNull
              end
  | _ => x
  end.

Definition required_columns : list string :=
  ["customerID"; "gender"; "Partner"; "Dependents";
   "PhoneService"; "InternetService"; "Contract";
   "tenure"; "MonthlyCharges"; "TotalCharges"].

Definition missing_columns (df : DataFrame) : list string :=
  filter (fun c => negb (mem c (columns df))) required_columns.

(** [for col in ["Partner", "Dependents", "PhoneService"]: ...] *)
Fixpoint check_yes_no (cols : list string) (failed : list string)
  : M (list string) :=
  match cols with
  | [] => ret failed
  | col :: rest =>
      v <- getitem col ;;
      check_yes_no rest
        (if forallb (isin ["Yes"; "No"]) v then failed
         else failed ++ [String.append col "_invalid"])
  end.

(** [for col in ["tenure", "MonthlyCharges", "TotalCharges"]:
        df[col] = pd.to_numeric(df[col], errors="coerce")] *)
Fixpoint coerce_columns (cols : list string) : M unit :=
  match cols with
  | [] => ret tt
  | col :: rest =>
      v <- getitem col ;;
      _ <- setitem col (map to_numeric_cell v) ;;
      coerce_columns rest
  end.

Definition numeric_columns : list string :=
  ["tenure"; "MonthlyCharges"; "TotalCharges"].

(** Lines 97-132: the fallback checks (Mode B). *)
Definition fallback_validate : M ValidationResult :=
  df <- get ;;
  match missing_columns df with
  | _ :: _ => ret (false, ["missing_required_columns"])
  | [] =>
      g <- getitem "gender" ;;
      let failed := if forallb (isin ["Male"; "Female"]) g
                    then [] else ["gender_invalid"] in
      failed <- check_yes_no ["Partner"; "Dependents"; "PhoneService"] failed ;;
      c <- getitem "Contract" ;;
      let failed := if forallb (isin ["Month-to-month"; "One year"; "Two year"]) c
                    then failed else failed ++ ["contract_invalid"] in
      i <- getitem "InternetService" ;;
      let failed := if forallb (isin ["DSL"; "Fiber optic"; "No"]) i
                    then failed else failed ++ ["internet_invalid"] in
      _ <- coerce_columns numeric_columns ;;
      t <- getitem "tenure" ;;
      t_lo <- series_any (lt_bound 0) t ;;
      t_bad <- (if t_lo then ret true
                else t' <- getitem "tenure" ;; series_any (gt_bound 120) t') ;;
      let failed := if t_bad then failed ++ ["tenure_range"] else failed in
      m <- getitem "MonthlyCharges" ;;
      m_lo <- series_any (lt_bound 0) m ;;
      m_bad <- (if m_lo then ret true
                else m' <- getitem "MonthlyCharges" ;; series_any (gt_bound 200) m') ;;
      let failed := if m_bad then failed ++ ["monthly_charges_range"] else failed in
      tc <- getitem "TotalCharges" ;;
      tc_neg <- series_any (lt_bound 0) tc ;;
      let failed := if tc_neg then failed ++ ["total_charges_negative"] else failed in
      match failed with
      | [] => ret (true, [])
      | _ :: _ => ret (false, failed)
      end
  end.


(** ** The fallback checks in closed form

    Used by the proofs: the column a read of [df[c]] returns, the frame after
    the coercion loop, and the failed identifiers of lines 104-125. *)

Definition single_of (df : DataFrame) (c : string) : option Column :=
  match filter (fun p => String.eqb (fst p) c) df with
  | [(_, v)] => Some v
  | _ => None
  end.

Definition column_or_nil (df : DataFrame) (c : string) : Column :=
  match single_of df c with Some v => v | None => [] end.

Fixpoint coerce_frame (cols : list string) (df : DataFrame) : DataFrame :=
  match cols with
  | [] => df
  | c :: rest =>
      coerce_frame rest (set_column df c (map to_numeric_cell (column_or_nil df c)))
  end.

(** The columns the fallback reads with [df[c]]. *)
Definition read_columns : list string :=
  ["gender"; "Partner"; "Dependents"; "PhoneService"; "Contract";
   "InternetService"; "tenure"; "MonthlyCharges"; "TotalCharges"].

Definition all_in (vs : list string) (df : DataFrame) (c : string) : bool :=
  forallb (isin vs) (column_or_nil df c).

Definition coerced (df : DataFrame) (c : string) : Column :=
  map to_numeric_cell (column_or_nil df c).

(** A cell for which [series <op> b] is [True]. *)
Definition flagged (p : Q -> bool) (x : Cell) : bool :=
  match cmp_cell p x with Some true => true | _ => false end.

Definition range_flag (lo : Q) (hi : option Q) (v : Column) : bool :=
  existsb (flagged (lt_bound lo)) v
  || match hi with Some h => existsb (flagged (gt_bound h)) v | None => false end.

Definition fallback_failed (df : DataFrame) : list string :=
  (if all_in ["Male"; "Female"] df "gender" then [] else ["gender_invalid"]) ++
  (if all_in ["Yes"; "No"] df "Partner" then [] else ["Partner_invalid"]) ++
  (if all_in ["Yes"; "No"] df "Dependents" then [] else ["Dependents_invalid"]) ++
  (if all_in ["Yes"; "No"] df "PhoneService" then [] else ["PhoneService_invalid"]) ++
  (if all_in ["Month-to-month"; "One year"; "Two year"] df "Contract"
   then [] else ["contract_invalid"]) ++
  (if all_in ["DSL"; "Fiber optic"; "No"] df "InternetService"
   then [] else ["internet_invalid"]) ++
  (if range_flag 0 (Some 120) (coerced df "tenure") then ["tenure_range"] else []) ++
  (if range_flag 0 (Some 200) (coerced df "MonthlyCharges")
   then ["monthly_charges_range"] else []) ++
  (if range_flag 0 None (coerced df "TotalCharges")
   then ["total_charges_negative"] else []).

Definition fallback_result (df : DataFrame) : ValidationResult :=
  match fallback_failed df with
  | [] => (true, [])
  | f => (false, f)
  end.


(** ** The rules of the data model (spec, section 3) *)

(** Categorical rules: column, allowed values, identifier of Mode B. *)
Definition categorical_rules : list (string * list string * string) :=
  [("gender", ["Male"; "Female"], "gender_invalid");
   ("Partner", ["Yes"; "No"], "Partner_invalid");
   ("Dependents", ["Yes"; "No"], "Dependents_invalid");
   ("PhoneService", ["Yes"; "No"], "PhoneService_invalid");
   ("Contract", ["Month-to-month"; "One year"; "Two year"], "contract_invalid");
   ("InternetService", ["DSL"; "Fiber optic"; "No"], "internet_invalid")].

(** Range rules: column, lower bound, upper bound, identifier of Mode B. *)
Definition range_rules : list (string * Q * option Q * string) :=
  [("tenure", 0, Some 120, "tenure_range");
   ("MonthlyCharges", 0, Some 200, "monthly_charges_range");
   ("TotalCharges", 0, None, "total_charges_negative")].

(** A number within [lo, hi] (no upper bound for [None]). *)
Definition within (lo : Q) (hi : option Q) (x : Cell) : Prop :=
  exists q, num_of x = Some q /\ lo <= q /\
            match hi with Some h => q <= h | None => True end.

(** One row's [TotalCharges >= MonthlyCharges]. *)
Definition row_consistent (r : Cell * Cell) : bool :=
  match num_of (fst r), num_of (snd r) with
  | Some t, Some m => Qle_bool m t
  | _, _ => false
  end.

(** The rows the pair expectation checks: all but those where both values
    are null. *)
Definition pair_rows (vt vm : Column) : list (Cell * Cell) :=
  filter (fun r => negb (is_null (fst r) && is_null (snd r))) (combine vt vm).

(** A row of the pair expectation holding two numbers, or two nulls (which
    the expectation skips). *)
Definition paired_row (r : Cell * Cell) : bool :=
  match num_of (fst r), num_of (snd r) with
  | Some _, Some _ => true
  | _, _ => is_null (fst r) && is_null (snd r)
  end.

(** Every rule of section 3, for a dataset whose rows are mappings (no
    duplicated column name) of equal length. *)
Definition satisfies_data_model (df : DataFrame) : Prop :=
  NoDup (columns df) /\
  (forall c v c' v', In (c, v) df -> In (c', v') df -> length v = length v') /\
  (forall c, In c required_columns -> In c (columns df)) /\
  (forall v x, In ("customerID", v) df -> In x v -> x <> CNull) /\
  (forall c vs id, In (c, vs, id) categorical_rules ->
     forall v x, In (c, v) df -> In x v -> isin vs x = true) /\
  (forall c lo hi id, In (c, lo, hi, id) range_rules ->
     forall v x, In (c, v) df -> In x v -> within lo hi x) /\
  (forall vt vm, In ("TotalCharges", vt) df -> In ("MonthlyCharges", vm) df ->
     95 * length vt <= 100 * length (filter row_consistent (combine vt vm)))%nat.


(** [validate_telco_data]; [GE_AVAILABLE] is fixed at import time. *)
Definition validate_telco_data (GE_AVAILABLE : bool) : M ValidationResult :=
  if GE_AVAILABLE then ge_validate else fallback_validate.

(** The identifiers Mode B reports, in the order the code tests them. *)
Definition fallback_check_ids : list string :=
  ["missing_required_columns"; "gender_invalid"; "Partner_invalid"; "Dependents_invalid";
   "PhoneService_invalid"; "contract_invalid"; "internet_invalid"; "tenure_range";
   "monthly_charges_range"; "total_charges_negative"].

End Validator.

(** ** Concrete inputs *)

(** A decimal parser ([-]digits[.digits]) standing for pandas' parser in
    the concrete runs below. *)
Fixpoint parse_unsigned (s : string) (num : Z) (den : positive) (dot seen : bool)
  : option Q :=
  match s with
  | EmptyString => if seen then Some (num # den) else None
  | String c rest =>
      if Ascii.eqb c "."%char then
        if dot then None else parse_unsigned rest num den true seen
      else
        let n := nat_of_ascii c in
        if Nat.leb 48 n && Nat.leb n 57 then
          parse_unsigned rest (num * 10 + Z.of_nat (n - 48))
                         (if dot then den * 10 else den) dot true
        else None
  end.

Definition decimal_of_string (s : string) : option Q :=
  match s with
  | String c rest =>
      if Ascii.eqb c "-"%char then option_map Qopp (parse_unsigned rest 0 1 false false)
      else parse_unsigned s 0 1 false false
  | EmptyString => None
  end.

(** The one-row dataset of the spec's scenarios, with the four cells that
    vary between them as parameters. *)
Definition scenario_df (gender tenure monthly total : Cell) : DataFrame :=
  [("customerID", [CStr "1"]); ("gender", [gender]); ("Partner", [CStr "Yes"]);
   ("Dependents", [CStr "No"]); ("PhoneService", [CStr "Yes"]);
   ("InternetService", [CStr "Fiber optic"]); ("Contract", [CStr "Month-to-month"]);
   ("tenure", [tenure]); ("MonthlyCharges", [monthly]); ("TotalCharges", [total])].

Definition scenario1 : DataFrame :=
  scenario_df (CStr "Male") (CInt 5) (CFloat (7035 # 100)) (CFloat (35075 # 100)).

(** Scenario 1 with the charges as the Telco CSV has them, as strings. *)
Definition string_charges_df : DataFrame :=
  scenario_df (CStr "Male") (CInt 5) (CFloat (7035 # 100)) (CStr "350.75").

(** Scenario 2 of the spec, and a dataset breaking five rules at once. *)
Definition scenario2 : DataFrame :=
  scenario_df (CStr "Other") (CInt 5) (CFloat (7035 # 100)) (CFloat (35075 # 100)).

Definition many_violations_df : DataFrame :=
  [("customerID", [CStr "1"; CStr "2"; CStr "3"]);
   ("gender", [CStr "Other"; CStr "Male"; CStr "Female"]);
   ("Partner", [CStr "Yes"; CStr "No"; CStr "Yes"]);
   ("Dependents", [CStr "No"; CStr "No"; CStr "Yes"]);
   ("PhoneService", [CStr "Yes"; CStr "Yes"; CStr "No"]);
   ("InternetService", [CStr "DSL"; CStr "Fiber optic"; CStr "No"]);
   ("Contract", [CStr "Month-to-month"; CStr "Three year"; CStr "One year"]);
   ("tenure", [CInt 5; CInt 12; CInt 130]);
   ("MonthlyCharges", [CFloat (7035 # 100); CInt 250; CInt 20]);
   ("TotalCharges", [CStr "350.75"; CStr "-3"; CInt 2600])].

(** Scenario 1 with a blank [TotalCharges], as in the Telco CSV for new
    customers. *)
Definition blank_charges_df : DataFrame :=
  scenario_df (CStr "Male") (CInt 5) (CFloat (7035 # 100)) (CStr " ").

(** Scenario 1 without its [TotalCharges] column. *)
Definition missing_column_df : DataFrame :=
  filter (fun p => negb (String.eqb (fst p) "TotalCharges")) scenario1.

(** Scenario 5 of the spec: rows of [TotalCharges] and [MonthlyCharges]. *)
Definition charges_df (rows : list (Cell * Cell)) : DataFrame :=
  [("TotalCharges", map fst rows); ("MonthlyCharges", map snd rows)].

Definition consistent_row : Cell * Cell := (CFloat (35075 # 100), CFloat (7035 # 100)).
Definition violating_row : Cell * Cell := (CInt 10, CFloat (7035 # 100)).

Definition one_in_twenty : list (Cell * Cell) := repeat consistent_row 19 ++ [violating_row].
Definition two_in_twenty : list (Cell * Cell) :=
  repeat consistent_row 18 ++ [violating_row; violating_row].
Definition one_in_twenty_and_empty_row : list (Cell * Cell) :=
  one_in_twenty ++ [(CNull, CNull)].

(** Scenario 1 with [gender] twice. *)
Definition dup_gender_df : DataFrame := scenario1 ++ [("gender", [CStr "Male"])].

(** Scenario 1 with a column the validator does not know. *)
Definition extra_column_df : DataFrame := scenario1 ++ [("SeniorCitizen", [CInt 0])].

(** Every required column, no row. *)
Definition empty_df : DataFrame := map (fun c => (c, [])) required_columns.

(** Case analysis on a hypothesis [In _ l] over a concrete list. *)
Ltac in_cases H :=
  cbn in H;
  repeat match type of H with
         | _ \/ _ => destruct H as [H|H]
         | False => destruct H
         end.

Ltac solve_in := cbn; repeat (first [left; reflexivity | right]).

Ltac solve_within :=
  eexists; split; [reflexivity|];
  split; [apply Qle_bool_iff; reflexivity|];
  first [exact I | apply Qle_bool_iff; reflexivity].

Ltac solve_nodup := repeat constructor; cbn; intuition discriminate.

Ltac solve_categorical :=
  let c := fresh "c" in let vs := fresh "vs" in let id := fresh "id" in
  let Hr := fresh "Hr" in let v := fresh "v" in let x := fresh "x" in
  let Hin := fresh "Hin" in let Hx := fresh "Hx" in
  intros c vs id Hr v x Hin Hx; in_cases Hr; inversion Hr; subst;
  in_cases Hin; inversion Hin; subst; in_cases Hx; subst; reflexivity.

(** Each cell of each range column: in range by [tac_in], or as [tac_out]. *)
Ltac solve_range_cells tac :=
  let c := fresh "c" in let lo := fresh "lo" in let hi := fresh "hi" in
  let id := fresh "id" in let Hr := fresh "Hr" in let v := fresh "v" in
  let x := fresh "x" in let Hin := fresh "Hin" in let Hx := fresh "Hx" in
  intros c lo hi id Hr v x Hin Hx; in_cases Hr; inversion Hr; subst;
  in_cases Hin; inversion Hin; subst; in_cases Hx; subst; tac.

Ltac solve_present := let c := fresh "c" in let H := fresh "H" in
  intros c H; in_cases H; subst; solve_in.

(** [e] reads a column whose read [Herr] raises [err]. *)
Ltac fails_at_read e err Herr :=
  exists e; split;
  [solve_in | exists err; cbn [eval_expectation]; unfold bind; cbv beta; rewrite Herr; reflexivity].

(** * Proofs *)

Section Proofs.

Variable parse_numeric : string -> option Q.


(** ** The monad *)

Lemma bind_ok {A B} (m : M A) (k : A -> M B) df a d :
  m df = Ok a d -> bind m k df = k a d.
Proof. unfold bind; intros ->; reflexivity. Qed.

Lemma bind_inv {A B} (m : M A) (k : A -> M B) df b d :
  bind m k df = Ok b d -> exists a d', m df = Ok a d' /\ k a d' = Ok b d.
Proof.
  unfold bind; destruct (m df) as [a d'|e d']; intros H; [|discriminate].
  eauto.
Qed.

(** ** Column reads and writes *)

Lemma getitem_single df c v :
  single_of df c = Some v -> getitem c df = Ok v df.
Proof.
  unfold single_of, getitem.
  destruct (filter _ df) as [|[n w] [|? ?]]; congruence.
Qed.

Lemma getitem_ok df c v d :
  getitem c df = Ok v d -> d = df /\ single_of df c = Some v.
Proof.
  unfold single_of, getitem.
  destruct (filter _ df) as [|[n w] [|? ?]]; intros H; inversion H; auto.
Qed.

Lemma single_of_mem df c v :
  single_of df c = Some v -> mem c (columns df) = true.
Proof.
  unfold single_of, mem, columns; induction df as [|[n w] rest IH]; cbn.
  - discriminate.
  - destruct (String.eqb_spec n c) as [->|Hne].
    + rewrite String.eqb_refl; reflexivity.
    + intros H; rewrite (IH H), orb_true_r; reflexivity.
Qed.

Lemma filter_set_other (df : DataFrame) c c' v :
  c <> c' ->
  filter (fun p => String.eqb (fst p) c')
         (map (fun p => if String.eqb (fst p) c then (c, v) else p) df)
  = filter (fun p => String.eqb (fst p) c') df.
Proof.
  intros Hne; induction df as [|[n w] rest IH]; cbn; [reflexivity|].
  destruct (String.eqb_spec n c) as [->|Hnc]; cbn.
  - apply String.eqb_neq in Hne; rewrite Hne; exact IH.
  - destruct (String.eqb n c'); rewrite IH; reflexivity.
Qed.

Lemma single_of_set_other df c c' v :
  c <> c' -> single_of (set_column df c v) c' = single_of df c'.
Proof.
  intros Hne; unfold single_of, set_column.
  destruct (mem c (columns df)).
  - rewrite filter_set_other by exact Hne; reflexivity.
  - rewrite filter_app; cbn.
    destruct (String.eqb_spec c c'); [contradiction|].
    rewrite app_nil_r; reflexivity.
Qed.

Lemma filter_set_same (df : DataFrame) c v :
  filter (fun p => String.eqb (fst p) c)
         (map (fun p => if String.eqb (fst p) c then (c, v) else p) df)
  = map (fun _ => (c, v)) (filter (fun p => String.eqb (fst p) c) df).
Proof.
  induction df as [|[n w] rest IH]; cbn; [reflexivity|].
  destruct (String.eqb_spec n c) as [->|Hnc]; cbn.
  - rewrite String.eqb_refl, IH; reflexivity.
  - apply String.eqb_neq in Hnc; rewrite Hnc; exact IH.
Qed.

Lemma single_of_set_same df c w v :
  single_of df c = Some w -> single_of (set_column df c v) c = Some v.
Proof.
  intros H; unfold set_column; rewrite (single_of_mem _ _ _ H).
  revert H; unfold single_of; rewrite filter_set_same.
  destruct (filter _ df) as [|[n u] [|? ?]]; cbn; congruence.
Qed.

Lemma columns_set df c v :
  mem c (columns df) = true -> columns (set_column df c v) = columns df.
Proof.
  intros H; unfold set_column; rewrite H; unfold columns.
  rewrite map_map; apply map_ext; intros [n w]; cbn.
  destruct (String.eqb_spec n c); subst; reflexivity.
Qed.

Lemma set_column_same df c v :
  single_of df c = Some v -> set_column df c v = df.
Proof.
  intros H; unfold set_column; rewrite (single_of_mem _ _ _ H).
  revert H; unfold single_of.
  induction df as [|[n w] rest IH]; cbn; [discriminate|].
  destruct (String.eqb_spec n c) as [->|Hnc]; cbn.
  - destruct (filter _ rest) eqn:Hr; [|destruct p; destruct l; discriminate].
    intros [= ->]; f_equal.
    clear IH; induction rest as [|[n' w'] rest' IH']; cbn in *; [reflexivity|].
    destruct (String.eqb n' c) eqn:E; [discriminate|]. rewrite IH' by exact Hr.
    reflexivity.
  - intros H; rewrite (IH H); reflexivity.
Qed.

(** ** Comparisons after the coercion *)

Lemma cmp_cell_flagged p x :
  (forall s, x <> CStr s) -> cmp_cell p x = Some (flagged p x).
Proof.
  intros H; unfold flagged; destruct x; cbn.
  - exfalso; exact (H s eq_refl).
  - destruct (p (inject_Z z)); reflexivity.
  - destruct (p q); reflexivity.
  - reflexivity.
Qed.

Lemma to_numeric_not_str x s : to_numeric_cell parse_numeric x <> CStr s.
Proof.
  unfold to_numeric_cell; destruct x; try discriminate.
  destruct (parse_numeric s0); discriminate.
Qed.

Lemma series_any_coerced p v df :
  series_any p (map (to_numeric_cell parse_numeric) v) df
  = Ok (existsb (flagged p) (map (to_numeric_cell parse_numeric) v)) df.
Proof.
  unfold series_any.
  assert (E : cmp_series p (map (to_numeric_cell parse_numeric) v)
              = Some (map (flagged p) (map (to_numeric_cell parse_numeric) v))).
  { induction v as [|x rest IH]; cbn; [reflexivity|].
    rewrite (cmp_cell_flagged p _ (to_numeric_not_str x)), IH; reflexivity. }
  rewrite E; unfold ret; f_equal.
  clear E; induction (map (to_numeric_cell parse_numeric) v) as [|x rest IH]; cbn; [reflexivity|].
  rewrite IH; reflexivity.
Qed.

(** ** The loops of the fallback *)

Lemma check_yes_no_ok cols f df :
  (forall c, In c cols -> single_of df c <> None) ->
  check_yes_no cols f df
  = Ok (fold_left (fun f col => if all_in ["Yes"; "No"] df col then f
                                 else f ++ [String.append col "_invalid"]) cols f) df.
Proof.
  revert f; induction cols as [|c rest IH]; intros f Hs; cbn; [reflexivity|].
  destruct (single_of df c) as [v|] eqn:E; [|exfalso; exact (Hs c (or_introl eq_refl) E)].
  rewrite (bind_ok _ _ _ _ _ (getitem_single _ _ _ E)).
  replace (all_in ["Yes"; "No"] df c) with (forallb (isin ["Yes"; "No"]) v)
    by (unfold all_in, column_or_nil; rewrite E; reflexivity).
  apply IH; intros c' Hc'; apply Hs; right; exact Hc'.
Qed.

Lemma check_yes_no_inv cols f df r d :
  check_yes_no cols f df = Ok r d ->
  d = df /\ (forall c, In c cols -> single_of df c <> None).
Proof.
  revert f; induction cols as [|c rest IH]; intros f H; cbn in H.
  - inversion H; split; [reflexivity | intros c []].
  - apply bind_inv in H as (v & d' & Hg & Hk).
    apply getitem_ok in Hg as [-> Hs].
    apply IH in Hk as [-> Hr]; split; [reflexivity|].
    intros c' [<-|Hc']; [congruence | exact (Hr c' Hc')].
Qed.

Lemma coerce_columns_ok cols df :
  NoDup cols ->
  (forall c, In c cols -> single_of df c <> None) ->
  coerce_columns parse_numeric cols df = Ok tt (coerce_frame parse_numeric cols df).
Proof.
  revert df; induction cols as [|c rest IH]; intros df Hnd Hs; cbn; [reflexivity|].
  inversion Hnd as [|? ? Hnotin Hnd']; subst.
  destruct (single_of df c) as [v|] eqn:E; [|exfalso; exact (Hs c (or_introl eq_refl) E)].
  rewrite (bind_ok _ _ _ _ _ (getitem_single _ _ _ E)).
  rewrite (bind_ok _ _ _ _ _ (eq_refl : setitem c (map (to_numeric_cell parse_numeric) v) df
                                       = Ok tt (set_column df c (map (to_numeric_cell parse_numeric) v)))).
  replace (column_or_nil df c) with v by (unfold column_or_nil; rewrite E; reflexivity).
  apply IH; [exact Hnd'|].
  intros c' Hc'; rewrite single_of_set_other by (intros ->; contradiction).
  apply Hs; right; exact Hc'.
Qed.

Lemma coerce_columns_inv cols df u d :
  NoDup cols ->
  coerce_columns parse_numeric cols df = Ok u d ->
  forall c, In c cols -> single_of df c <> None.
Proof.
  revert df; induction cols as [|c rest IH]; intros df Hnd H; cbn in H; [intros ? []|].
  inversion Hnd as [|? ? Hnotin Hnd']; subst.
  apply bind_inv in H as (v & d1 & Hg & Hk).
  apply getitem_ok in Hg as [-> Hs].
  apply bind_inv in Hk as (t & d2 & Hset & Hk).
  inversion Hset; subst.
  intros c' [<-|Hc']; [congruence|].
  specialize (IH _ Hnd' Hk c' Hc').
  rewrite single_of_set_other in IH by (intros ->; contradiction).
  exact IH.
Qed.

Lemma single_of_coerce_frame cols df c :
  NoDup cols ->
  (forall c, In c cols -> single_of df c <> None) ->
  single_of (coerce_frame parse_numeric cols df) c
  = if mem c cols then Some (map (to_numeric_cell parse_numeric) (column_or_nil df c))
    else single_of df c.
Proof.
  revert df; induction cols as [|c0 rest IH]; intros df Hnd Hs; cbn; [reflexivity|].
  inversion Hnd as [|? ? Hnotin Hnd']; subst.
  destruct (single_of df c0) as [v|] eqn:E; [|exfalso; exact (Hs c0 (or_introl eq_refl) E)].
  assert (Hs' : forall c', In c' rest ->
                 single_of (set_column df c0 (map (to_numeric_cell parse_numeric) (column_or_nil df c0))) c'
                 <> None).
  { intros c' Hc'; rewrite single_of_set_other by (intros ->; contradiction).
    apply Hs; right; exact Hc'. }
  rewrite (IH _ Hnd' Hs').
  unfold mem; cbn [existsb].
  destruct (String.eqb_spec c c0) as [->|Hne]; cbn [orb].
  - destruct (existsb (String.eqb c0) rest) eqn:Hm.
    + exfalso; apply Hnotin; apply existsb_exists in Hm as (x & Hx & Hxe).
      apply String.eqb_eq in Hxe; subst; exact Hx.
    + apply (single_of_set_same _ _ v); exact E.
  - rewrite single_of_set_other by (intros ->; contradiction).
    destruct (existsb (String.eqb c) rest); [|reflexivity].
    unfold column_or_nil; rewrite single_of_set_other by (intros ->; contradiction).
    reflexivity.
Qed.

Lemma numeric_columns_nodup : NoDup numeric_columns.
Proof. unfold numeric_columns; repeat constructor; cbn; intuition discriminate. Qed.

Lemma or_else_ok (b b2 : bool) (m : M bool) d :
  m d = Ok b2 d -> (if b then ret true else m) d = Ok (b || b2) d.
Proof. destruct b; [reflexivity | exact id]. Qed.

(** ** The fallback in closed form *)

Lemma fallback_runs df :
  missing_columns df = [] ->
  (forall c, In c read_columns -> single_of df c <> None) ->
  fallback_validate parse_numeric df = Ok (fallback_result parse_numeric df) (coerce_frame parse_numeric numeric_columns df).
Proof.
  intros Hmiss Hs.
  assert (Hv : forall c, In c read_columns -> single_of df c = Some (column_or_nil df c)).
  { intros c Hc; unfold column_or_nil; destruct (single_of df c) eqn:E; [reflexivity|].
    exfalso; exact (Hs c Hc E). }
  assert (Hnum : forall c, In c numeric_columns -> single_of df c <> None).
  { intros c Hc; apply Hs; cbn in Hc |- *; tauto. }
  set (d := coerce_frame parse_numeric numeric_columns df).
  assert (Hd : forall c, In c numeric_columns ->
               single_of d c = Some (map (to_numeric_cell parse_numeric) (column_or_nil df c))).
  { intros c Hc; unfold d.
    rewrite (single_of_coerce_frame _ _ _ numeric_columns_nodup Hnum).
    replace (mem c numeric_columns) with true; [reflexivity|].
    symmetry; unfold mem; apply existsb_exists; exists c; split;
      [exact Hc | apply String.eqb_refl]. }
  unfold fallback_validate.
  rewrite (bind_ok get _ df df df eq_refl); cbv beta; rewrite Hmiss.
  rewrite (bind_ok _ _ _ _ _ (getitem_single _ _ _ (Hv "gender" ltac:(cbn; tauto)))).
  cbv beta zeta.
  rewrite (bind_ok _ _ _ _ _ (check_yes_no_ok ["Partner"; "Dependents"; "PhoneService"] _ df
             ltac:(intros c Hc; apply Hs; cbn in Hc |- *; tauto))).
  cbv beta zeta.
  rewrite (bind_ok _ _ _ _ _ (getitem_single _ _ _ (Hv "Contract" ltac:(cbn; tauto)))).
  cbv beta zeta.
  rewrite (bind_ok _ _ _ _ _ (getitem_single _ _ _ (Hv "InternetService" ltac:(cbn; tauto)))).
  cbv beta zeta.
  rewrite (bind_ok _ _ _ _ _ (coerce_columns_ok _ _ numeric_columns_nodup Hnum)).
  fold d; cbv beta zeta.
  rewrite (bind_ok _ _ _ _ _ (getitem_single _ _ _ (Hd "tenure" ltac:(cbn; tauto)))).
  cbv beta zeta.
  rewrite (bind_ok _ _ _ _ _ (series_any_coerced (lt_bound 0) _ d)).
  cbv beta zeta.
  rewrite (bind_ok _ _ _ _ _ (or_else_ok _ _ _ _
    (eq_trans (bind_ok _ _ _ _ _ (getitem_single _ _ _ (Hd "tenure" ltac:(cbn; tauto))))
              (series_any_coerced (gt_bound 120) _ d)))).
  cbv beta zeta.
  rewrite (bind_ok _ _ _ _ _ (getitem_single _ _ _ (Hd "MonthlyCharges" ltac:(cbn; tauto)))).
  cbv beta zeta.
  rewrite (bind_ok _ _ _ _ _ (series_any_coerced (lt_bound 0) _ d)).
  cbv beta zeta.
  rewrite (bind_ok _ _ _ _ _ (or_else_ok _ _ _ _
    (eq_trans (bind_ok _ _ _ _ _ (getitem_single _ _ _ (Hd "MonthlyCharges" ltac:(cbn; tauto))))
              (series_any_coerced (gt_bound 200) _ d)))).
  cbv beta zeta.
  rewrite (bind_ok _ _ _ _ _ (getitem_single _ _ _ (Hd "TotalCharges" ltac:(cbn; tauto)))).
  cbv beta zeta.
  rewrite (bind_ok _ _ _ _ _ (series_any_coerced (lt_bound 0) _ d)).
  cbv beta zeta.
  unfold fallback_result, fallback_failed, range_flag, all_in,
    coerced.
  cbv beta iota zeta; rewrite orb_false_r; cbn [fold_left].
  repeat match goal with
         | |- context [if ?b then _ else _] =>
             lazymatch type of b with bool => destruct b end
         end;
    reflexivity.
Qed.

Lemma fallback_inv df r d :
  fallback_validate parse_numeric df = Ok r d ->
  missing_columns df = [] ->
  forall c, In c read_columns -> single_of df c <> None.
Proof.
  intros H Hmiss.
  unfold fallback_validate in H.
  rewrite (bind_ok get _ df df df eq_refl) in H; cbv beta in H; rewrite Hmiss in H.
  apply bind_inv in H as (g & d1 & Hg & H); apply getitem_ok in Hg as [-> Hg].
  cbv beta zeta in H.
  apply bind_inv in H as (f1 & d2 & Hy & H); apply check_yes_no_inv in Hy as [-> Hy].
  apply bind_inv in H as (c & d3 & Hc & H); apply getitem_ok in Hc as [-> Hc].
  apply bind_inv in H as (i & d4 & Hi & H); apply getitem_ok in Hi as [-> Hi].
  apply bind_inv in H as (u & d5 & Hco & _).
  pose proof (coerce_columns_inv _ _ _ _ numeric_columns_nodup Hco) as Hn.
  intros c0 Hc0; cbn in Hc0.
  destruct Hc0 as [<-|[<-|[<-|[<-|[<-|[<-|[<-|[<-|[<-|[]]]]]]]]]];
    first [congruence | apply Hy; cbn; tauto | apply Hn; cbn; tauto].
Qed.

(** Every outcome of the fallback that is not an exception. *)
Lemma fallback_cases df r d :
  fallback_validate parse_numeric df = Ok r d ->
  (missing_columns df <> [] /\ r = (false, ["missing_required_columns"]) /\ d = df)
  \/ (missing_columns df = []
      /\ (forall c, In c read_columns -> single_of df c <> None)
      /\ r = fallback_result parse_numeric df /\ d = coerce_frame parse_numeric numeric_columns df).
Proof.
  intros H; destruct (missing_columns df) as [|m ms] eqn:Hmiss.
  - right; pose proof (fallback_inv _ _ _ H Hmiss) as Hs.
    rewrite (fallback_runs _ Hmiss Hs) in H; inversion H; auto.
  - left; unfold fallback_validate, bind, get in H; rewrite Hmiss in H.
    inversion H; subst; split; [discriminate | auto].
Qed.

(** ** Well-formed frames *)

Lemma mem_In c l : mem c l = true <-> In c l.
Proof.
  unfold mem; rewrite existsb_exists; split.
  - intros (x & Hx & E); apply String.eqb_eq in E; subst; exact Hx.
  - intros H; exists c; split; [exact H | apply String.eqb_refl].
Qed.

Lemma filter_named_absent (rest : DataFrame) c :
  ~ In c (columns rest) -> filter (fun p => String.eqb (fst p) c) rest = [].
Proof.
  induction rest as [|[n w] r IH]; cbn; intros H; [reflexivity|].
  destruct (String.eqb_spec n c) as [->|Hne]; [exfalso; apply H; left; reflexivity|].
  apply IH; intros H'; apply H; right; exact H'.
Qed.

Lemma nodup_single df c v :
  NoDup (columns df) -> In (c, v) df -> single_of df c = Some v.
Proof.
  unfold single_of; induction df as [|[n w] rest IH]; cbn; intros Hnd Hin; [destruct Hin|].
  inversion Hnd as [|? ? Hn Hnd']; subst.
  destruct Hin as [[= <- <-]|Hin].
  - rewrite String.eqb_refl, (filter_named_absent rest n Hn); reflexivity.
  - assert (Hne : n <> c).
    { intros ->; apply Hn; apply (in_map fst) in Hin; exact Hin. }
    apply String.eqb_neq in Hne; rewrite Hne; apply IH; assumption.
Qed.

Lemma nodup_present df c :
  NoDup (columns df) -> In c (columns df) -> single_of df c <> None.
Proof.
  intros Hnd Hc; unfold columns in Hc; apply in_map_iff in Hc as ([c' v] & Heq & Hin).
  cbn in Heq; subst c'.
  rewrite (nodup_single _ _ _ Hnd Hin); discriminate.
Qed.

Lemma single_in df c v : single_of df c = Some v -> In (c, v) df.
Proof.
  unfold single_of; intros H.
  destruct (filter _ df) as [|[n w] [|? ?]] eqn:E; try discriminate.
  inversion H; subst.
  assert (Hin : In (n, v) (filter (fun p => String.eqb (fst p) c) df)) by (rewrite E; left; reflexivity).
  apply filter_In in Hin as [Hin Hn]; cbn in Hn; apply String.eqb_eq in Hn; subst; exact Hin.
Qed.

Lemma missing_nil df :
  missing_columns df = [] <-> forall c, In c required_columns -> In c (columns df).
Proof.
  unfold missing_columns; split.
  - intros H c Hc; apply mem_In.
    destruct (mem c (columns df)) eqn:E; [reflexivity|].
    assert (Hin : In c (filter (fun c => negb (mem c (columns df))) required_columns))
      by (apply filter_In; rewrite E; auto).
    rewrite H in Hin; destruct Hin.
  - intros H; induction required_columns as [|c rest IH]; cbn; [reflexivity|].
    (* the list is concrete: compute membership column by column *)
    rewrite (proj2 (mem_In c (columns df)) (H c (or_introl eq_refl))); cbn.
    apply IH; intros c' Hc'; apply H; right; exact Hc'.
Qed.

Lemma present_singles df :
  NoDup (columns df) ->
  (forall c, In c required_columns -> In c (columns df)) ->
  forall c, In c read_columns -> single_of df c <> None.
Proof.
  intros Hnd Hp c Hc; apply nodup_present; [exact Hnd|]; apply Hp.
  cbn in Hc |- *; tauto.
Qed.

Lemma fallback_present df :
  NoDup (columns df) ->
  (forall c, In c required_columns -> In c (columns df)) ->
  fallback_validate parse_numeric df
  = Ok (fallback_result parse_numeric df) (coerce_frame parse_numeric numeric_columns df).
Proof.
  intros Hnd Hp; apply fallback_runs; [apply missing_nil; exact Hp|].
  apply present_singles; assumption.
Qed.

Lemma fallback_result_snd df :
  snd (fallback_result parse_numeric df) = fallback_failed parse_numeric df.
Proof. unfold fallback_result; destruct (fallback_failed parse_numeric df); reflexivity. Qed.

Lemma fallback_result_fst df :
  fst (fallback_result parse_numeric df) = true <-> fallback_failed parse_numeric df = [].
Proof.
  unfold fallback_result; destruct (fallback_failed parse_numeric df); cbn;
    split; congruence.
Qed.

(** ** The flags of the fallback *)

Lemma flagged_coerced p x :
  flagged p (to_numeric_cell parse_numeric x)
  = match num_of (to_numeric_cell parse_numeric x) with Some q => p q | None => false end.
Proof.
  unfold flagged, to_numeric_cell; destruct x; cbn;
    try (destruct (parse_numeric s)); cbn; try reflexivity;
    match goal with |- context [p ?q] => destruct (p q) end; reflexivity.
Qed.

Lemma lt_bound_true lo q : lt_bound lo q = true <-> q < lo.
Proof.
  unfold lt_bound; rewrite negb_true_iff; split; intros H.
  - apply Qnot_le_lt; intros H'; apply Qle_bool_iff in H'; congruence.
  - destruct (Qle_bool lo q) eqn:E; [|reflexivity].
    apply Qle_bool_iff in E; exfalso; exact (Qlt_not_le _ _ H E).
Qed.

Lemma gt_bound_true h q : gt_bound h q = true <-> h < q.
Proof.
  unfold gt_bound; rewrite negb_true_iff; split; intros H.
  - apply Qnot_le_lt; intros H'; apply Qle_bool_iff in H'; congruence.
  - destruct (Qle_bool q h) eqn:E; [|reflexivity].
    apply Qle_bool_iff in E; exfalso; exact (Qlt_not_le _ _ H E).
Qed.

Lemma range_flag_true lo hi v x q :
  In x v -> num_of (to_numeric_cell parse_numeric x) = Some q ->
  (q < lo \/ match hi with Some h => h < q | None => False end) ->
  range_flag lo hi (map (to_numeric_cell parse_numeric) v) = true.
Proof.
  intros Hx Hq Hout; unfold range_flag; apply orb_true_iff.
  destruct Hout as [Hlo|Hhi].
  - left; apply existsb_exists; exists (to_numeric_cell parse_numeric x).
    split; [apply in_map; exact Hx|].
    rewrite flagged_coerced, Hq; apply lt_bound_true; exact Hlo.
  - right; destruct hi as [h|]; [|destruct Hhi].
    apply existsb_exists; exists (to_numeric_cell parse_numeric x).
    split; [apply in_map; exact Hx|].
    rewrite flagged_coerced, Hq; apply gt_bound_true; exact Hhi.
Qed.

Lemma range_flag_false lo hi v :
  (forall x q, In x v -> num_of (to_numeric_cell parse_numeric x) = Some q ->
     lo <= q /\ match hi with Some h => q <= h | None => True end) ->
  range_flag lo hi (map (to_numeric_cell parse_numeric) v) = false.
Proof.
  intros H; unfold range_flag; apply orb_false_iff; split.
  - apply not_true_is_false; intros E; apply existsb_exists in E as (y & Hy & Ey).
    apply in_map_iff in Hy as (x & <- & Hx).
    rewrite flagged_coerced in Ey.
    destruct (num_of (to_numeric_cell parse_numeric x)) as [q|] eqn:Eq; [|discriminate].
    apply lt_bound_true in Ey; destruct (H x q Hx Eq) as [Hlo _].
    exact (Qlt_not_le _ _ Ey Hlo).
  - destruct hi as [h|]; [|reflexivity].
    apply not_true_is_false; intros E; apply existsb_exists in E as (y & Hy & Ey).
    apply in_map_iff in Hy as (x & <- & Hx).
    rewrite flagged_coerced in Ey.
    destruct (num_of (to_numeric_cell parse_numeric x)) as [q|] eqn:Eq; [|discriminate].
    apply gt_bound_true in Ey; destruct (H x q Hx Eq) as [_ Hhi].
    exact (Qlt_not_le _ _ Ey Hhi).
Qed.

Lemma categorical_reported df c vs id :
  NoDup (columns df) -> In (c, vs, id) categorical_rules ->
  (exists v x, In (c, v) df /\ In x v /\ isin vs x = false) ->
  In id (fallback_failed parse_numeric df).
Proof.
  intros Hnd Hr (v & x & Hin & Hx & Hbad).
  assert (Hall : all_in vs df c = false).
  { unfold all_in, column_or_nil; rewrite (nodup_single _ _ _ Hnd Hin).
    destruct (forallb (isin vs) v) eqn:E; [|reflexivity].
    rewrite forallb_forall in E; rewrite (E x Hx) in Hbad; discriminate. }
  unfold fallback_failed; repeat rewrite in_app_iff.
  cbn in Hr; destruct Hr as [H|[H|[H|[H|[H|[H|[]]]]]]]; inversion H; subst;
    rewrite Hall; cbn; auto 20.
Qed.

Lemma range_reported df c lo hi id :
  NoDup (columns df) -> In (c, lo, hi, id) range_rules ->
  (exists v x q, In (c, v) df /\ In x v /\
     num_of (to_numeric_cell parse_numeric x) = Some q /\
     (q < lo \/ match hi with Some h => h < q | None => False end)) ->
  In id (fallback_failed parse_numeric df).
Proof.
  intros Hnd Hr (v & x & q & Hin & Hx & Hq & Hout).
  assert (Hf : range_flag lo hi (coerced parse_numeric df c) = true).
  { unfold coerced, column_or_nil; rewrite (nodup_single _ _ _ Hnd Hin).
    exact (range_flag_true _ _ _ _ _ Hx Hq Hout). }
  unfold fallback_failed; repeat rewrite in_app_iff.
  cbn in Hr; destruct Hr as [H|[H|[H|[]]]]; inversion H; subst;
    rewrite Hf; cbn; auto 20.
Qed.

(** * Claims about the fallback (Mode B) *)

(** C1: in Mode B, a dataset missing at least one required column gives
    [passed=false] with exactly [["missing_required_columns"]], and the call
    returns before any other check or the coercion: the dataset is left as
    it was. *)
Theorem fallback_missing_column_short_circuit df :
  (exists c, In c required_columns /\ ~ In c (columns df)) ->
  validate_telco_data parse_numeric false df
  = Ok (false, ["missing_required_columns"]) df.
Proof.
  intros (c & Hc & Hnot).
  unfold validate_telco_data; cbv iota; unfold fallback_validate.
  rewrite (bind_ok get _ df df df eq_refl); cbv beta.
  destruct (missing_columns df) eqn:E; [|reflexivity].
  exfalso; apply Hnot; apply (proj1 (missing_nil df) E); exact Hc.
Qed.

(** C6: in Mode B, every dataset whose rows are mappings (no column name
    twice), with cells of any of the four kinds, gets a result: no
    exception is raised. *)
Theorem fallback_never_raises df :
  NoDup (columns df) ->
  exists r d, validate_telco_data parse_numeric false df = Ok r d.
Proof.
  intros Hnd; unfold validate_telco_data; cbv iota.
  destruct (missing_columns df) eqn:E.
  - rewrite (fallback_runs _ E (present_singles _ Hnd (proj1 (missing_nil df) E))).
    eauto.
  - unfold fallback_validate; rewrite (bind_ok get _ df df df eq_refl); cbv beta.
    rewrite E; eauto.
Qed.

(** C7: in Mode B, with every required column present, all categorical and
    range checks run: each violated rule has its identifier in
    [failedChecks] (a range is violated by a cell whose numeric value after
    [pd.to_numeric] lies outside it). *)
Theorem fallback_reports_every_violation df :
  NoDup (columns df) ->
  (forall c, In c required_columns -> In c (columns df)) ->
  exists passed failed d,
    validate_telco_data parse_numeric false df = Ok (passed, failed) d /\
    (forall c vs id, In (c, vs, id) categorical_rules ->
       (exists v x, In (c, v) df /\ In x v /\ isin vs x = false) ->
       In id failed) /\
    (forall c lo hi id, In (c, lo, hi, id) range_rules ->
       (exists v x q, In (c, v) df /\ In x v /\
          num_of (to_numeric_cell parse_numeric x) = Some q /\
          (q < lo \/ match hi with Some h => h < q | None => False end)) ->
       In id failed).
Proof.
  intros Hnd Hp.
  exists (fst (fallback_result parse_numeric df)), (snd (fallback_result parse_numeric df)),
    (coerce_frame parse_numeric numeric_columns df).
  split; [unfold validate_telco_data; cbv iota; rewrite (fallback_present _ Hnd Hp);
          destruct (fallback_result parse_numeric df); reflexivity|].
  rewrite fallback_result_snd; split.
  - intros c vs id Hr Hv; exact (categorical_reported _ _ _ _ Hnd Hr Hv).
  - intros c lo hi id Hr Hv; exact (range_reported _ _ _ _ _ Hnd Hr Hv).
Qed.

(** C8: in Mode B, with every required column present, a gender value
    outside {Male, Female} gives [passed=false] and [gender_invalid] in
    [failedChecks]. *)
Theorem fallback_gender_invalid df :
  NoDup (columns df) ->
  (forall c, In c required_columns -> In c (columns df)) ->
  (exists v x, In ("gender", v) df /\ In x v /\ isin ["Male"; "Female"] x = false) ->
  exists failed d,
    validate_telco_data parse_numeric false df = Ok (false, failed) d /\
    In "gender_invalid" failed.
Proof.
  intros Hnd Hp Hg.
  assert (Hin : In "gender_invalid" (fallback_failed parse_numeric df)).
  { apply (categorical_reported _ "gender" ["Male"; "Female"]); [exact Hnd | cbn; auto | exact Hg]. }
  exists (fallback_failed parse_numeric df), (coerce_frame parse_numeric numeric_columns df).
  split; [|exact Hin].
  unfold validate_telco_data; cbv iota; rewrite (fallback_present _ Hnd Hp).
  unfold fallback_result; destruct (fallback_failed parse_numeric df); [destruct Hin|].
  reflexivity.
Qed.

(** A dataset whose categorical cells are allowed and whose range-column
    cells are in range or unparseable strings has no failed check. *)
Lemma fallback_failed_nil df :
  NoDup (columns df) ->
  (forall c, In c required_columns -> In c (columns df)) ->
  (forall c vs id, In (c, vs, id) categorical_rules ->
     forall v x, In (c, v) df -> In x v -> isin vs x = true) ->
  (forall c lo hi id, In (c, lo, hi, id) range_rules ->
     forall v x, In (c, v) df -> In x v ->
       within lo hi x \/ exists s, x = CStr s /\ parse_numeric s = None) ->
  fallback_failed parse_numeric df = [].
Proof.
  intros Hnd Hp Hcat Hrange.
  assert (Hcol : forall c v, In (c, v) df -> column_or_nil df c = v)
    by (intros c v Hin; unfold column_or_nil; rewrite (nodup_single _ _ _ Hnd Hin); reflexivity).
  assert (Hall : forall c vs id, In (c, vs, id) categorical_rules -> all_in vs df c = true).
  { intros c vs id Hr; unfold all_in.
    assert (Hc : In c (columns df)) by (apply Hp; cbn in Hr |- *;
      destruct Hr as [H|[H|[H|[H|[H|[H|[]]]]]]]; inversion H; subst; tauto).
    unfold columns in Hc; apply in_map_iff in Hc as ([c' v] & Heq & Hin); cbn in Heq; subst c'.
    rewrite (Hcol _ _ Hin); apply forallb_forall; intros x Hx; exact (Hcat _ _ _ Hr _ _ Hin Hx). }
  assert (Hfl : forall c lo hi id, In (c, lo, hi, id) range_rules ->
                range_flag lo hi (coerced parse_numeric df c) = false).
  { intros c lo hi id Hr.
    assert (Hc : In c (columns df)) by (apply Hp; cbn in Hr |- *;
      destruct Hr as [H|[H|[H|[]]]]; inversion H; subst; tauto).
    unfold columns in Hc; apply in_map_iff in Hc as ([c' v] & Heq & Hin); cbn in Heq; subst c'.
    unfold coerced; rewrite (Hcol _ _ Hin); apply range_flag_false.
    intros x q Hx Hq; destruct (Hrange _ _ _ _ Hr _ _ Hin Hx) as [(q' & Hq' & Hb)|(s & -> & Hs)].
    - destruct x; cbn in Hq, Hq'; try discriminate; rewrite Hq in Hq'; inversion Hq'; subst; exact Hb.
    - cbn in Hq; rewrite Hs in Hq; discriminate. }
  unfold fallback_failed.
  rewrite (Hall "gender" _ "gender_invalid"), (Hall "Partner" _ "Partner_invalid"),
    (Hall "Dependents" _ "Dependents_invalid"), (Hall "PhoneService" _ "PhoneService_invalid"),
    (Hall "Contract" _ "contract_invalid"), (Hall "InternetService" _ "internet_invalid"),
    (Hfl "tenure" _ _ "tenure_range"), (Hfl "MonthlyCharges" _ _ "monthly_charges_range"),
    (Hfl "TotalCharges" _ _ "total_charges_negative") by (cbn; tauto).
  reflexivity.
Qed.

(** C10: in Mode B, an unparseable [tenure], [MonthlyCharges] or
    [TotalCharges] string is coerced to null and triggers no range check:
    a dataset valid except for such strings gets [passed=true] and
    [failedChecks=[]], and the strings are null in the dataset afterwards. *)
Theorem fallback_unparseable_is_null df :
  NoDup (columns df) ->
  (forall c, In c required_columns -> In c (columns df)) ->
  (forall c vs id, In (c, vs, id) categorical_rules ->
     forall v x, In (c, v) df -> In x v -> isin vs x = true) ->
  (forall c lo hi id, In (c, lo, hi, id) range_rules ->
     forall v x, In (c, v) df -> In x v ->
       within lo hi x \/ exists s, x = CStr s /\ parse_numeric s = None) ->
  exists d,
    validate_telco_data parse_numeric false df = Ok (true, []) d /\
    (forall c v s, In c numeric_columns -> In (c, v) df -> In (CStr s) v ->
       parse_numeric s = None ->
       exists w, In (c, w) d /\ In CNull w).
Proof.
  intros Hnd Hp Hcat Hrange.
  assert (Hcol : forall c v, In (c, v) df -> column_or_nil df c = v)
    by (intros c v Hin; unfold column_or_nil; rewrite (nodup_single _ _ _ Hnd Hin); reflexivity).
  pose proof (fallback_failed_nil _ Hnd Hp Hcat Hrange) as Hff.
  exists (coerce_frame parse_numeric numeric_columns df); split.
  - unfold validate_telco_data; cbv iota; rewrite (fallback_present _ Hnd Hp).
    unfold fallback_result; rewrite Hff; reflexivity.
  - intros c v s Hc Hin Hs Hps.
    exists (map (to_numeric_cell parse_numeric) v); split.
    + apply single_in.
      assert (Hnum : forall c, In c numeric_columns -> single_of df c <> None)
        by (intros c' Hc'; apply (present_singles _ Hnd Hp); cbn in Hc' |- *; tauto).
      rewrite (single_of_coerce_frame _ _ c numeric_columns_nodup Hnum).
      rewrite (proj2 (mem_In c numeric_columns) Hc), (Hcol _ _ Hin); reflexivity.
    + apply in_map_iff; exists (CStr s); split; [cbn; rewrite Hps; reflexivity | exact Hs].
Qed.

(** ** Mode A only reads the data frame *)

Lemma read_only_ret {A} (a : A) : read_only (ret a).
Proof. intros df; reflexivity. Qed.

Lemma read_only_raise {A} e : read_only (A := A) (raise e).
Proof. intros df; reflexivity. Qed.

Lemma read_only_get : read_only get.
Proof. intros df; reflexivity. Qed.

Lemma read_only_getitem c : read_only (getitem c).
Proof. intros df; unfold getitem; destruct (filter _ df) as [|[n w] [|? ?]]; reflexivity. Qed.

Lemma read_only_lift_type {A} (o : option A) : read_only (lift_type o).
Proof. destruct o; intros df; reflexivity. Qed.

Lemma read_only_bind {A B} (m : M A) (k : A -> M B) :
  read_only m -> (forall a, read_only (k a)) -> read_only (bind m k).
Proof.
  intros Hm Hk df; unfold bind; specialize (Hm df).
  destruct (m df) as [a d|e d]; cbn in *; subst; [apply Hk | reflexivity].
Qed.

Create HintDb readonly.

#[local] Hint Resolve read_only_ret read_only_raise read_only_get read_only_getitem
  read_only_lift_type read_only_bind : readonly.

Lemma read_only_eval e : read_only (eval_expectation e).
Proof.
  destruct e; unfold eval_expectation;
    repeat (apply read_only_bind; intros; auto with readonly); auto with readonly.
Qed.

Lemma read_only_caught e : read_only (eval_caught e).
Proof.
  intros df; unfold eval_caught; pose proof (read_only_eval e df) as H.
  destruct (eval_expectation e df); exact H.
Qed.

Lemma read_only_interactive es : read_only (run_interactive es).
Proof.
  induction es as [|e rest IH]; cbn; auto with readonly.
  apply read_only_bind; [apply read_only_eval | intros; exact IH].
Qed.

Lemma read_only_suite es : read_only (validate_suite es).
Proof.
  induction es as [|e rest IH]; cbn; auto with readonly.
  apply read_only_bind; [apply read_only_caught | intros].
  apply read_only_bind; [exact IH | auto with readonly].
Qed.

Lemma read_only_ge : read_only ge_validate.
Proof.
  unfold ge_validate; apply read_only_bind; [apply read_only_interactive | intros].
  apply read_only_bind; [apply read_only_suite | intros results].
  destruct (forallb snd results); auto with readonly.
Qed.

Lemma ge_validate_frame df r d : ge_validate df = Ok r d -> d = df.
Proof. intros H; pose proof (read_only_ge df) as E; rewrite H in E; exact E. Qed.

(** The result of Mode A in closed form. *)
Lemma ge_validate_result df r d :
  ge_validate df = Ok r d ->
  exists results,
    r = if forallb snd results then (true, [])
        else (false, map fst (filter (fun r => negb (snd r)) results)).
Proof.
  unfold ge_validate; intros H.
  apply bind_inv in H as (u & d1 & _ & H).
  apply bind_inv in H as (results & d2 & _ & H).
  exists results; destruct (forallb snd results); inversion H; reflexivity.
Qed.

(** ** The coercion loop in place *)

Lemma coerce_frame_in_place cols df :
  NoDup cols ->
  (forall c, In c cols -> single_of df c <> None) ->
  coerce_frame parse_numeric cols df
  = map (fun p => if mem (fst p) cols
                  then (fst p, map (to_numeric_cell parse_numeric) (snd p)) else p) df.
Proof.
  revert df; induction cols as [|c rest IH]; intros df Hnd Hs; cbn.
  - symmetry; apply map_id.
  - inversion Hnd as [|? ? Hnotin Hnd']; subst.
    destruct (single_of df c) as [v|] eqn:E; [|exfalso; exact (Hs c (or_introl eq_refl) E)].
    assert (Hv : column_or_nil df c = v) by (unfold column_or_nil; rewrite E; reflexivity).
    rewrite Hv, IH.
    2: exact Hnd'.
    2: { intros c' Hc'; rewrite single_of_set_other by (intros ->; contradiction).
         apply Hs; right; exact Hc'. }
    unfold set_column; rewrite (single_of_mem _ _ _ E), map_map.
    apply map_ext_in; intros [n w] Hin; cbn.
    destruct (String.eqb_spec n c) as [->|Hne]; cbn.
    +
      destruct (mem c rest) eqn:Hm; [exfalso; apply Hnotin; apply mem_In; exact Hm|].
      f_equal; f_equal.
      (* the only column named c holds v *)
      unfold single_of in E.
      assert (Hf : In (c, w) (filter (fun p => String.eqb (fst p) c) df))
        by (apply filter_In; cbn; rewrite String.eqb_refl; auto).
      destruct (filter _ df) as [|[n' u] [|? ?]]; try discriminate.
      inversion E; subst; destruct Hf as [Heq|[]]; inversion Heq; congruence.
    + reflexivity.
Qed.

Lemma columns_coerce_frame cols df :
  (forall c, In c cols -> single_of df c <> None) ->
  NoDup cols ->
  columns (coerce_frame parse_numeric cols df) = columns df.
Proof.
  intros Hs Hnd; rewrite (coerce_frame_in_place _ _ Hnd Hs); unfold columns.
  rewrite map_map; apply map_ext; intros [n w]; cbn; destruct (mem n cols); reflexivity.
Qed.

Lemma to_numeric_idem v :
  map (to_numeric_cell parse_numeric) (map (to_numeric_cell parse_numeric) v)
  = map (to_numeric_cell parse_numeric) v.
Proof.
  rewrite map_map; apply map_ext; intros x; unfold to_numeric_cell.
  destruct x; try reflexivity; destruct (parse_numeric s); reflexivity.
Qed.

Lemma coerce_frame_fixed cols df :
  (forall c, In c cols -> exists v, single_of df c = Some v /\
                               map (to_numeric_cell parse_numeric) v = v) ->
  coerce_frame parse_numeric cols df = df.
Proof.
  revert df; induction cols as [|c rest IH]; intros df Hs; cbn; [reflexivity|].
  destruct (Hs c (or_introl eq_refl)) as (v & E & Hv).
  assert (Hcv : column_or_nil df c = v) by (unfold column_or_nil; rewrite E; reflexivity).
  rewrite Hcv, Hv, (set_column_same _ _ _ E).
  apply IH; intros c' Hc'; apply Hs; right; exact Hc'.
Qed.

Lemma missing_columns_eq df df' :
  columns df' = columns df -> missing_columns df' = missing_columns df.
Proof. intros E; unfold missing_columns; rewrite E; reflexivity. Qed.

(** Mode B run again on its own output. *)
Lemma fallback_rerun df :
  missing_columns df = [] ->
  (forall c, In c read_columns -> single_of df c <> None) ->
  let d := coerce_frame parse_numeric numeric_columns df in
  fallback_validate parse_numeric d = Ok (fallback_result parse_numeric df) d.
Proof.
  intros Hmiss Hs d.
  assert (Hnum : forall c, In c numeric_columns -> single_of df c <> None)
    by (intros c Hc; apply Hs; cbn in Hc |- *; tauto).
  assert (Hsd : forall c, single_of d c
                = if mem c numeric_columns
                  then Some (map (to_numeric_cell parse_numeric) (column_or_nil df c))
                  else single_of df c)
    by (intros c; apply single_of_coerce_frame; [exact numeric_columns_nodup | exact Hnum]).
  assert (Hcol : forall c, column_or_nil d c
                 = if mem c numeric_columns
                   then map (to_numeric_cell parse_numeric) (column_or_nil df c)
                   else column_or_nil df c)
    by (intros c; unfold column_or_nil at 1; rewrite Hsd; destruct (mem c numeric_columns); reflexivity).
  assert (Hmiss' : missing_columns d = [])
    by (rewrite (missing_columns_eq df d); [exact Hmiss | apply columns_coerce_frame;
          [exact Hnum | exact numeric_columns_nodup]]).
  assert (Hs' : forall c, In c read_columns -> single_of d c <> None).
  { intros c Hc; rewrite Hsd; destruct (mem c numeric_columns); [discriminate | apply Hs; exact Hc]. }
  assert (Hfix : coerce_frame parse_numeric numeric_columns d = d).
  { apply coerce_frame_fixed; intros c Hc.
    exists (map (to_numeric_cell parse_numeric) (column_or_nil df c)); split.
    - rewrite Hsd, (proj2 (mem_In c numeric_columns) Hc); reflexivity.
    - apply to_numeric_idem. }
  assert (Hff : fallback_failed parse_numeric d = fallback_failed parse_numeric df).
  { unfold fallback_failed, all_in, coerced; rewrite !Hcol; cbn [mem existsb numeric_columns String.eqb Ascii.eqb Bool.eqb orb andb].
    rewrite !to_numeric_idem; reflexivity. }
  rewrite (fallback_runs _ Hmiss' Hs'), Hfix; unfold fallback_result; rewrite Hff; reflexivity.
Qed.

(** * Claims about both modes *)

(** C5: calling the validator again on the same (possibly coerced) dataset
    gives the same result, and leaves the dataset as the first call left it. *)
Theorem validate_idempotent ge df r d :
  validate_telco_data parse_numeric ge df = Ok r d ->
  validate_telco_data parse_numeric ge d = Ok r d.
Proof.
  unfold validate_telco_data; destruct ge; intros H.
  - pose proof (ge_validate_frame _ _ _ H); subst d; exact H.
  - destruct (fallback_cases _ _ _ H) as [(Hm & _ & ->)|(Hm & Hs & -> & ->)].
    + exact H.
    + exact (fallback_rerun _ Hm Hs).
Qed.

(** C9: every result, in both modes, has an empty [failedChecks] exactly
    when [passed] is true. *)
Theorem validate_result_invariant ge df :
  match validate_telco_data parse_numeric ge df with
  | Ok (passed, failed) _ => failed = [] <-> passed = true
  | Err _ _ => True
  end.
Proof.
  unfold validate_telco_data; destruct ge.
  - destruct (ge_validate df) as [[p f] d|e d] eqn:E; [|exact I].
    destruct (ge_validate_result _ _ _ E) as (results & Hr).
    destruct (forallb snd results) eqn:Hall; inversion Hr; subst; [split; reflexivity|].
    split; [|discriminate]; intros Hnil; exfalso.
    destruct (filter (fun r => negb (snd r)) results) eqn:Hf; [|discriminate].
    clear - Hall Hf; induction results as [|[n b] rest IH]; cbn in *; [discriminate|].
    destruct b; cbn in *; [exact (IH Hf Hall) | discriminate].
  - destruct (fallback_validate parse_numeric df) as [[p f] d|e d] eqn:E; [|exact I].
    destruct (fallback_cases _ _ _ E) as [(_ & Hr & _)|(_ & _ & Hr & _)].
    + inversion Hr; subst; split; discriminate.
    + unfold fallback_result in Hr; destruct (fallback_failed parse_numeric df);
        inversion Hr; subst; split; congruence.
Qed.

(** ** Mode A on a dataset that satisfies the data model *)

Lemma count_true_all {A} (f : A -> bool) l :
  (forall x, In x l -> f x = true) -> count_true (map f l) = length l.
Proof.
  induction l as [|x rest IH]; intros H; cbn; [reflexivity|].
  rewrite (H x (or_introl eq_refl)); cbn; f_equal; apply IH; intros y Hy; apply H; right; exact Hy.
Qed.

Lemma count_true_filter {A} (f : A -> bool) l :
  count_true (map f l) = length (filter f l).
Proof.
  induction l as [|x rest IH]; cbn; [reflexivity|].
  unfold count_true in *; destruct (f x); cbn; rewrite IH; reflexivity.
Qed.

Lemma map_checked_total {A} (f : A -> option bool) (g : A -> bool) l :
  (forall x, In x l -> f x = Some (g x)) -> map_checked f l = Some (map g l).
Proof.
  induction l as [|x rest IH]; intros H; cbn; [reflexivity|].
  rewrite (H x (or_introl eq_refl)), IH by (intros y Hy; apply H; right; exact Hy).
  reflexivity.
Qed.

Lemma calc_all n : calc_map_expectation_success n n None = true.
Proof.
  unfold calc_map_expectation_success; destruct (Nat.ltb 0 n); [|reflexivity].
  rewrite Nat.sub_diag; reflexivity.
Qed.

Lemma filter_all {A} (f : A -> bool) l :
  (forall x, In x l -> f x = true) -> filter f l = l.
Proof.
  induction l as [|x rest IH]; intros H; cbn; [reflexivity|].
  rewrite (H x (or_introl eq_refl)), IH by (intros y Hy; apply H; right; exact Hy).
  reflexivity.
Qed.

Lemma within_not_null lo hi x : within lo hi x -> not_null x = true.
Proof. intros (q & Hq & _); destruct x; cbn in *; congruence. Qed.

Lemma within_is_between lo hi x :
  within lo hi x -> is_between (Some lo) hi x = Some true.
Proof.
  intros (q & Hq & Hlo & Hhi).
  destruct x; cbn in Hq; try discriminate; injection Hq as <-; cbn;
    apply Qle_bool_iff in Hlo; rewrite Hlo; cbn;
    destruct hi as [h|]; try reflexivity; apply Qle_bool_iff in Hhi; rewrite Hhi; reflexivity.
Qed.

Lemma pair_greater_numeric a b :
  not_null a = true -> not_null b = true -> num_of a <> None -> num_of b <> None ->
  pair_greater true (a, b) = Some (row_consistent (a, b)).
Proof.
  unfold row_consistent; destruct a, b; cbn; intros; try discriminate; try congruence;
    reflexivity.
Qed.

(** [mostly] against the exact fraction of satisfied rows. *)
Lemma calc_mostly k n :
  (0 < n)%nat -> (95 * n <= 100 * k)%nat ->
  calc_map_expectation_success k n (Some (95 # 100)) = true.
Proof.
  intros Hn Hk; unfold calc_map_expectation_success.
  destruct (Nat.ltb_spec 0 n); [|lia].
  apply Qle_bool_iff; unfold Qle; cbn [Qnum Qden].
  destruct n as [|n']; [lia|].
  rewrite <- Pos.of_nat_succ, Zpos_P_of_succ_nat; lia.
Qed.

Section DataModel.
Variable df : DataFrame.
Hypothesis Hmodel : satisfies_data_model df.

Lemma model_column c :
  In c required_columns -> exists v, In (c, v) df /\ getitem c df = Ok v df.
Proof.
  intros Hc; destruct Hmodel as (Hnd & _ & Hp & _).
  pose proof (Hp c Hc) as Hin; unfold columns in Hin.
  apply in_map_iff in Hin as ([c' v] & Heq & Hin); cbn in Heq; subst c'.
  exists v; split; [exact Hin|]; apply getitem_single, nodup_single; assumption.
Qed.

Lemma model_in_set c vs id :
  In (c, vs, id) categorical_rules ->
  eval_expectation (expect_column_values_to_be_in_set c vs) df = Ok true df.
Proof.
  intros Hr; destruct Hmodel as (_ & _ & _ & _ & Hcat & _).
  assert (Hc : In c required_columns)
    by (cbn in Hr |- *; destruct Hr as [H|[H|[H|[H|[H|[H|[]]]]]]]; inversion H; subst; tauto).
  destruct (model_column c Hc) as (v & Hin & Hg).
  cbn [eval_expectation]; rewrite (bind_ok _ _ _ _ _ Hg).
  rewrite count_true_all; [unfold ret; rewrite calc_all; reflexivity|].
  intros x Hx; apply filter_In in Hx as [Hx _]; exact (Hcat _ _ _ Hr _ _ Hin Hx).
Qed.

Lemma model_between c lo hi id :
  In (c, lo, hi, id) range_rules ->
  eval_expectation (expect_column_values_to_be_between c (Some lo) hi) df = Ok true df.
Proof.
  intros Hr; destruct Hmodel as (_ & _ & _ & _ & _ & Hrange & _).
  assert (Hc : In c required_columns)
    by (cbn in Hr |- *; destruct Hr as [H|[H|[H|[]]]]; inversion H; subst; tauto).
  destruct (model_column c Hc) as (v & Hin & Hg).
  cbn [eval_expectation]; rewrite (bind_ok _ _ _ _ _ Hg).
  rewrite (map_checked_total _ (fun _ => true)).
  - cbn [lift_type bind ret]; rewrite count_true_all by reflexivity; rewrite calc_all; reflexivity.
  - intros x Hx; apply filter_In in Hx as [Hx _].
    exact (within_is_between _ _ _ (Hrange _ _ _ _ Hr _ _ Hin Hx)).
Qed.

Lemma model_numeric_not_null c :
  In c numeric_columns ->
  eval_expectation (expect_column_values_to_not_be_null c) df = Ok true df.
Proof.
  intros Hc; destruct Hmodel as (_ & _ & _ & _ & _ & Hrange & _).
  destruct (model_column c) as (v & Hin & Hg); [cbn in Hc |- *; tauto|].
  cbn [eval_expectation]; rewrite (bind_ok _ _ _ _ _ Hg).
  rewrite count_true_all; [unfold ret; rewrite calc_all; reflexivity|].
  intros x Hx; cbn in Hc; destruct Hc as [<-|[<-|[<-|[]]]];
    [ eapply within_not_null, (Hrange _ _ _ _ (or_introl eq_refl) _ _ Hin Hx)
    | eapply within_not_null, (Hrange _ _ _ _ (or_intror (or_introl eq_refl)) _ _ Hin Hx)
    | eapply within_not_null,
        (Hrange _ _ _ _ (or_intror (or_intror (or_introl eq_refl))) _ _ Hin Hx) ].
Qed.

Lemma model_customer_not_null :
  eval_expectation (expect_column_values_to_not_be_null "customerID") df = Ok true df.
Proof.
  destruct Hmodel as (_ & _ & _ & Hid & _).
  destruct (model_column "customerID") as (v & Hin & Hg); [cbn; tauto|].
  cbn [eval_expectation]; rewrite (bind_ok _ _ _ _ _ Hg).
  rewrite count_true_all; [unfold ret; rewrite calc_all; reflexivity|].
  intros x Hx; specialize (Hid _ _ Hin Hx); destruct x; cbn; congruence.
Qed.

Lemma model_exist c :
  In c required_columns ->
  eval_expectation (expect_column_to_exist c) df = Ok true df.
Proof.
  intros Hc; destruct Hmodel as (_ & _ & Hp & _).
  cbn [eval_expectation]; rewrite (bind_ok get _ df df df eq_refl).
  unfold ret; rewrite (proj2 (mem_In c (columns df)) (Hp c Hc)); reflexivity.
Qed.

Lemma model_consistency :
  eval_expectation consistency_expectation df = Ok true df.
Proof.
  destruct Hmodel as (_ & Hlen & _ & _ & _ & Hrange & Hcons).
  destruct (model_column "TotalCharges") as (vt & Hint & Hgt); [cbn; tauto|].
  destruct (model_column "MonthlyCharges") as (vm & Hinm & Hgm); [cbn; tauto|].
  assert (Ht : forall x, In x vt -> within 0 None x)
    by (intros x Hx; exact (Hrange _ _ _ _ (or_intror (or_intror (or_introl eq_refl))) _ _ Hint Hx)).
  assert (Hm : forall x, In x vm -> within 0 (Some 200) x)
    by (intros x Hx; exact (Hrange _ _ _ _ (or_intror (or_introl eq_refl)) _ _ Hinm Hx)).
  pose proof (Hcons _ _ Hint Hinm) as Hk.
  unfold consistency_expectation; cbn [eval_expectation].
  rewrite (bind_ok _ _ _ _ _ Hgt), (bind_ok _ _ _ _ _ Hgm).
  rewrite filter_all.
  2: { intros [a b] Hab; destruct (Ht a (in_combine_l _ _ _ _ Hab)) as (q & Hq & _).
       destruct a; cbn in Hq; try discriminate; reflexivity. }
  rewrite (map_checked_total _ row_consistent).
  2: { intros [a b] Hab.
       pose proof (Ht a (in_combine_l _ _ _ _ Hab)) as Ha.
       pose proof (Hm b (in_combine_r _ _ _ _ Hab)) as Hb.
       apply pair_greater_numeric;
         [ exact (within_not_null _ _ _ Ha) | exact (within_not_null _ _ _ Hb)
         | destruct Ha as (q & Hq & _); congruence | destruct Hb as (q & Hq & _); congruence ]. }
  cbn [lift_type bind ret]; rewrite count_true_filter.
  rewrite length_combine, <- (Hlen _ _ _ _ Hint Hinm), Nat.min_id.
  destruct (Nat.eqb_spec (length vt) 0) as [E|E]; [rewrite E; reflexivity|].
  rewrite calc_mostly; [reflexivity | lia | exact Hk].
Qed.

Lemma model_suite e :
  In e telco_suite -> eval_expectation e df = Ok true df.
Proof.
  intros He; cbn [telco_suite In] in He.
  repeat destruct He as [<-|He]; try destruct He;
    first
      [ apply model_exist; cbn; tauto
      | apply model_customer_not_null
      | apply model_numeric_not_null; cbn; tauto
      | eapply model_in_set; cbn; repeat (first [left; reflexivity | right])
      | eapply model_between; cbn; repeat (first [left; reflexivity | right])
      | apply model_consistency ].
Qed.

Lemma interactive_all es :
  (forall e, In e es -> eval_expectation e df = Ok true df) ->
  run_interactive es df = Ok tt df.
Proof.
  induction es as [|e rest IH]; intros H; cbn; [reflexivity|].
  rewrite (bind_ok _ _ _ _ _ (H e (or_introl eq_refl))).
  apply IH; intros e' He'; apply H; right; exact He'.
Qed.

Lemma suite_all es :
  (forall e, In e es -> eval_expectation e df = Ok true df) ->
  exists rs, validate_suite es df = Ok rs df /\ forallb snd rs = true.
Proof.
  induction es as [|e rest IH]; intros H; cbn; [exists []; split; reflexivity|].
  assert (Hc : eval_caught e df = Ok (expectation_type e, true) df)
    by (unfold eval_caught; rewrite (H e (or_introl eq_refl)); reflexivity).
  rewrite (bind_ok _ _ _ _ _ Hc).
  destruct IH as (rs & Hrs & Hall); [intros e' He'; apply H; right; exact He'|].
  rewrite (bind_ok _ _ _ _ _ Hrs).
  exists ((expectation_type e, true) :: rs); split; [reflexivity | exact Hall].
Qed.

Lemma group_by_column_incl es e : In e (group_by_column es) -> In e es.
Proof.
  unfold group_by_column; intros H; apply in_flat_map in H as (k & _ & H).
  apply filter_In in H; tauto.
Qed.

Lemma model_ge : ge_validate df = Ok (true, []) df.
Proof.
  unfold ge_validate; rewrite (bind_ok _ _ _ _ _ (interactive_all _ model_suite)).
  destruct (suite_all (group_by_column telco_suite)) as (rs & Hrs & Hall).
  { intros e He; apply model_suite, (group_by_column_incl _ _ He). }
  rewrite (bind_ok _ _ _ _ _ Hrs), Hall; reflexivity.
Qed.

End DataModel.

(** C2: a dataset that satisfies every rule of the data model (no column
    name twice, columns of equal length, every required column present,
    [customerID] never null, categorical values in their sets, [tenure] in
    [0,120], [MonthlyCharges] in [0,200], [TotalCharges >= 0], and
    [TotalCharges >= MonthlyCharges] on at least 95% of rows) passes in both
    modes, with no failed check. *)
Theorem validate_accepts_data_model ge df :
  satisfies_data_model df ->
  exists d, validate_telco_data parse_numeric ge df = Ok (true, []) d.
Proof.
  intros Hm; unfold validate_telco_data; destruct ge.
  - exists df; exact (model_ge df Hm).
  - destruct Hm as (Hnd & _ & Hp & _ & Hcat & Hrange & _).
    exists (coerce_frame parse_numeric numeric_columns df).
    rewrite (fallback_present _ Hnd Hp); unfold fallback_result.
    rewrite (fallback_failed_nil _ Hnd Hp Hcat); [reflexivity|].
    intros c lo hi id Hr v x Hin Hx; left; exact (Hrange _ _ _ _ Hr _ _ Hin Hx).
Qed.

(** ** The consistency check of Mode A *)

Lemma pair_greater_row a b :
  paired_row (a, b) = true -> negb (is_null a && is_null b) = true ->
  pair_greater true (a, b) = Some (row_consistent (a, b)).
Proof. destruct a, b; cbn; intros; try discriminate; reflexivity. Qed.

Lemma calc_mostly_iff k n :
  calc_map_expectation_success k n (Some (95 # 100)) = true
  <-> n = 0%nat \/ (95 * n <= 100 * k)%nat.
Proof.
  unfold calc_map_expectation_success.
  destruct (Nat.ltb_spec 0 n) as [Hn|Hn]; [|split; [intros _; left; lia | reflexivity]].
  rewrite Qle_bool_iff; unfold Qle; cbn [Qnum Qden].
  destruct n as [|n']; [lia|].
  rewrite <- Pos.of_nat_succ, Zpos_P_of_succ_nat; split; [intros; right | intros [|]]; lia.
Qed.

(** C4 (as amended): in Mode A, the consistency check leaves out the rows
    where both [TotalCharges] and [MonthlyCharges] are null; when every
    other row holds two numbers, it passes if and only if no row is left or
    at least 95% of the rows left have [TotalCharges >= MonthlyCharges].
    So 1 violation in 20 rows passes and 2 in 20 fail. *)
Theorem consistency_check_fraction df vt vm :
  single_of df "TotalCharges" = Some vt ->
  single_of df "MonthlyCharges" = Some vm ->
  forallb paired_row (combine vt vm) = true ->
  exists b, eval_expectation consistency_expectation df = Ok b df /\
    (b = true <-> pair_rows vt vm = [] \/
                  (95 * length (pair_rows vt vm)
                   <= 100 * length (filter row_consistent (pair_rows vt vm)))%nat).
Proof.
  intros Ht Hm Hp.
  rewrite forallb_forall in Hp.
  unfold consistency_expectation; cbn [eval_expectation].
  rewrite (bind_ok _ _ _ _ _ (getitem_single _ _ _ Ht)),
    (bind_ok _ _ _ _ _ (getitem_single _ _ _ Hm)).
  rewrite (map_checked_total _ row_consistent).
  2: { intros [a b] Hab; apply filter_In in Hab as [Hab Hnn].
       apply pair_greater_row; [exact (Hp _ Hab) | exact Hnn]. }
  cbn [lift_type bind ret]; rewrite count_true_filter.
  eexists; split; [reflexivity|].
  fold (pair_rows vt vm); rewrite calc_mostly_iff, length_zero_iff_nil; reflexivity.
Qed.

(** * Further properties of Mode B *)

Lemma in_if_nil (b : bool) (x y : string) :
  In x (if b then [] else [y]) <-> y = x /\ b = false.
Proof. destruct b; cbn; intuition congruence. Qed.

Lemma in_if_one (b : bool) (x y : string) :
  In x (if b then [y] else []) <-> y = x /\ b = true.
Proof. destruct b; cbn; intuition congruence. Qed.

Lemma in_fallback_failed df x :
  In x (fallback_failed parse_numeric df) <->
  ("gender_invalid" = x /\ all_in ["Male"; "Female"] df "gender" = false) \/
  ("Partner_invalid" = x /\ all_in ["Yes"; "No"] df "Partner" = false) \/
  ("Dependents_invalid" = x /\ all_in ["Yes"; "No"] df "Dependents" = false) \/
  ("PhoneService_invalid" = x /\ all_in ["Yes"; "No"] df "PhoneService" = false) \/
  ("contract_invalid" = x /\
     all_in ["Month-to-month"; "One year"; "Two year"] df "Contract" = false) \/
  ("internet_invalid" = x /\ all_in ["DSL"; "Fiber optic"; "No"] df "InternetService" = false) \/
  ("tenure_range" = x /\ range_flag 0 (Some 120) (coerced parse_numeric df "tenure") = true) \/
  ("monthly_charges_range" = x /\
     range_flag 0 (Some 200) (coerced parse_numeric df "MonthlyCharges") = true) \/
  ("total_charges_negative" = x /\
     range_flag 0 None (coerced parse_numeric df "TotalCharges") = true).
Proof.
  unfold fallback_failed; rewrite !in_app_iff, !in_if_nil, !in_if_one; reflexivity.
Qed.

Lemma fallback_failed_ordered df :
  fallback_failed parse_numeric df
  = filter (fun id => mem id (fallback_failed parse_numeric df)) fallback_check_ids.
Proof.
  unfold fallback_failed.
  repeat match goal with
         | |- context [if ?b then _ else _] => lazymatch type of b with bool => destruct b end
         end; vm_compute; reflexivity.
Qed.

Lemma missing_not_in_failed df :
  ~ In "missing_required_columns" (fallback_failed parse_numeric df).
Proof. rewrite in_fallback_failed; intuition discriminate. Qed.

Lemma fallback_ok_failed df p f d :
  validate_telco_data parse_numeric false df = Ok (p, f) d ->
  (missing_columns df <> [] /\ f = ["missing_required_columns"]) \/
  (missing_columns df = [] /\ (forall c, In c read_columns -> single_of df c <> None) /\
   f = fallback_failed parse_numeric df).
Proof.
  unfold validate_telco_data; cbv iota; intros H.
  destruct (fallback_cases _ _ _ H) as [(Hm & Hr & _)|(Hm & Hs & Hr & _)].
  - left; inversion Hr; subst; auto.
  - right; split; [exact Hm|]; split; [exact Hs|].
    rewrite <- fallback_result_snd, <- Hr; reflexivity.
Qed.

Lemma forallb_false_ex {A} (f : A -> bool) l :
  forallb f l = false -> exists x, In x l /\ f x = false.
Proof.
  induction l as [|x rest IH]; cbn; [discriminate|].
  destruct (f x) eqn:E; cbn; intros H; [|eauto].
  destruct (IH H) as (y & Hy & Ey); eauto.
Qed.

Lemma range_flag_sound lo hi v :
  range_flag lo hi (map (to_numeric_cell parse_numeric) v) = true ->
  exists x q, In x v /\ num_of (to_numeric_cell parse_numeric x) = Some q /\
    (q < lo \/ match hi with Some h => h < q | None => False end).
Proof.
  unfold range_flag; intros H; apply orb_true_iff in H as [H|H].
  - apply existsb_exists in H as (y & Hy & Ey); apply in_map_iff in Hy as (x & <- & Hx).
    rewrite flagged_coerced in Ey.
    destruct (num_of (to_numeric_cell parse_numeric x)) as [q|] eqn:Eq; [|discriminate].
    exists x, q; split; [exact Hx | split; [exact Eq | left; apply lt_bound_true; exact Ey]].
  - destruct hi as [h|]; [|discriminate].
    apply existsb_exists in H as (y & Hy & Ey); apply in_map_iff in Hy as (x & <- & Hx).
    rewrite flagged_coerced in Ey.
    destruct (num_of (to_numeric_cell parse_numeric x)) as [q|] eqn:Eq; [|discriminate].
    exists x, q; split; [exact Hx | split; [exact Eq | right; apply gt_bound_true; exact Ey]].
Qed.

(** In Mode B, [failedChecks] holds each identifier at most once, in the
    order the code tests them. *)
Theorem fallback_failed_in_code_order df p f d :
  validate_telco_data parse_numeric false df = Ok (p, f) d ->
  f = filter (fun id => mem id f) fallback_check_ids.
Proof.
  intros H; destruct (fallback_ok_failed _ _ _ _ H) as [(_ & ->)|(_ & _ & ->)].
  - reflexivity.
  - apply fallback_failed_ordered.
Qed.

(** In Mode B, [missing_required_columns] is reported exactly when a
    required column is absent. *)
Theorem fallback_missing_reported_iff df p f d :
  validate_telco_data parse_numeric false df = Ok (p, f) d ->
  (In "missing_required_columns" f <->
   exists c, In c required_columns /\ ~ In c (columns df)).
Proof.
  intros H; destruct (fallback_ok_failed _ _ _ _ H) as [(Hm & ->)|(Hm & _ & ->)].
  - split; [intros _ | intros _; left; reflexivity].
    destruct (missing_columns df) as [|c rest] eqn:E; [contradiction|].
    assert (Hc : In c (missing_columns df)) by (rewrite E; left; reflexivity).
    unfold missing_columns in Hc; apply filter_In in Hc as [Hc Hn].
    exists c; split; [exact Hc|].
    intros Hin; apply mem_In in Hin; rewrite Hin in Hn; discriminate.
  - split; [intros Hin; exfalso; exact (missing_not_in_failed _ Hin)|].
    intros (c & Hc & Hn); exfalso; apply Hn; exact (proj1 (missing_nil df) Hm c Hc).
Qed.

(** In Mode B, a categorical identifier in [failedChecks] comes from a
    value of its column outside the allowed set. *)
Theorem fallback_categorical_sound df p f d c vs id :
  validate_telco_data parse_numeric false df = Ok (p, f) d ->
  In (c, vs, id) categorical_rules -> In id f ->
  exists v x, In (c, v) df /\ In x v /\ isin vs x = false.
Proof.
  intros H Hr Hid.
  destruct (fallback_ok_failed _ _ _ _ H) as [(_ & ->)|(_ & Hs & ->)].
  - exfalso; destruct Hid as [<-|[]]; cbn in Hr; intuition discriminate.
  - assert (Hc : In c read_columns)
      by (cbn in Hr |- *; destruct Hr as [Hr|[Hr|[Hr|[Hr|[Hr|[Hr|[]]]]]]]; inversion Hr; subst; tauto).
    assert (Hall : all_in vs df c = false).
    { apply in_fallback_failed in Hid.
      cbn in Hr; destruct Hr as [Hr|[Hr|[Hr|[Hr|[Hr|[Hr|[]]]]]]]; inversion Hr; subst;
        destruct Hid as [(E & B)|[(E & B)|[(E & B)|[(E & B)|[(E & B)|[(E & B)|[(E & B)|[(E & B)|(E & B)]]]]]]]]; first [discriminate E | exact B]. }
    destruct (single_of df c) as [v|] eqn:Ev; [|exfalso; exact (Hs c Hc Ev)].
    unfold all_in, column_or_nil in Hall; rewrite Ev in Hall.
    destruct (forallb_false_ex _ _ Hall) as (x & Hx & Hb).
    exists v, x; split; [apply single_in; exact Ev | split; assumption].
Qed.

(** In Mode B, a range identifier in [failedChecks] comes from a value of
    its column whose number after [pd.to_numeric] is out of range. *)
Theorem fallback_range_sound df p f d c lo hi id :
  validate_telco_data parse_numeric false df = Ok (p, f) d ->
  In (c, lo, hi, id) range_rules -> In id f ->
  exists v x q, In (c, v) df /\ In x v /\
    num_of (to_numeric_cell parse_numeric x) = Some q /\
    (q < lo \/ match hi with Some h => h < q | None => False end).
Proof.
  intros H Hr Hid.
  destruct (fallback_ok_failed _ _ _ _ H) as [(_ & ->)|(_ & Hs & ->)].
  - exfalso; destruct Hid as [<-|[]]; cbn in Hr; intuition discriminate.
  - assert (Hc : In c read_columns)
      by (cbn in Hr |- *; destruct Hr as [Hr|[Hr|[Hr|[]]]]; inversion Hr; subst; tauto).
    assert (Hfl : range_flag lo hi (coerced parse_numeric df c) = true).
    { apply in_fallback_failed in Hid.
      cbn in Hr; destruct Hr as [Hr|[Hr|[Hr|[]]]]; inversion Hr; subst;
        destruct Hid as [(E & B)|[(E & B)|[(E & B)|[(E & B)|[(E & B)|[(E & B)|[(E & B)|[(E & B)|(E & B)]]]]]]]]; first [discriminate E | exact B]. }
    destruct (single_of df c) as [v|] eqn:Ev; [|exfalso; exact (Hs c Hc Ev)].
    unfold coerced, column_or_nil in Hfl; rewrite Ev in Hfl.
    destruct (range_flag_sound _ _ _ Hfl) as (x & q & Hx & Hq & Hout).
    exists v, x, q; split; [apply single_in; exact Ev | auto].
Qed.

Lemma count_occ_columns df c :
  count_occ string_dec (columns df) c = length (filter (fun p => String.eqb (fst p) c) df).
Proof.
  induction df as [|[n w] rest IH]; [reflexivity|].
  unfold columns; cbn [map fst filter].
  destruct (String.eqb_spec n c) as [->|Hne].
  - rewrite count_occ_cons_eq by reflexivity; cbn [length]; f_equal; exact IH.
  - rewrite count_occ_cons_neq by exact Hne; exact IH.
Qed.

(** [df[c]] returns a single column exactly when the name occurs once. *)
Lemma single_of_count df c :
  single_of df c <> None <-> count_occ string_dec (columns df) c = 1%nat.
Proof.
  rewrite count_occ_columns; unfold single_of.
  destruct (filter _ df) as [|[n w] [|? ?]]; cbn; split; intros H;
    first [reflexivity | discriminate | lia | exfalso; apply H; reflexivity].
Qed.

Lemma single_unique df c v w : single_of df c = Some v -> In (c, w) df -> w = v.
Proof.
  unfold single_of; intros H Hin.
  assert (Hf : In (c, w) (filter (fun p => String.eqb (fst p) c) df))
    by (apply filter_In; cbn; rewrite String.eqb_refl; auto).
  destruct (filter _ df) as [|[n u] [|? ?]]; try discriminate.
  inversion H; subst; destruct Hf as [Heq|[]]; congruence.
Qed.

Lemma fallback_failed_nil_inv df :
  fallback_failed parse_numeric df = [] ->
  (forall c vs id, In (c, vs, id) categorical_rules -> all_in vs df c = true) /\
  (forall c lo hi id, In (c, lo, hi, id) range_rules ->
     range_flag lo hi (coerced parse_numeric df c) = false).
Proof.
  intros H; split.
  - intros c vs id Hr; destruct (all_in vs df c) eqn:E; [reflexivity|].
    exfalso; assert (Hid : In id (fallback_failed parse_numeric df)).
    { apply in_fallback_failed; cbn in Hr;
        destruct Hr as [Hr|[Hr|[Hr|[Hr|[Hr|[Hr|[]]]]]]]; inversion Hr; subst; auto 20. }
    rewrite H in Hid; destruct Hid.
  - intros c lo hi id Hr; destruct (range_flag lo hi (coerced parse_numeric df c)) eqn:E;
      [|reflexivity].
    exfalso; assert (Hid : In id (fallback_failed parse_numeric df)).
    { apply in_fallback_failed; cbn in Hr;
        destruct Hr as [Hr|[Hr|[Hr|[]]]]; inversion Hr; subst; auto 20. }
    rewrite H in Hid; destruct Hid.
Qed.

Lemma range_flag_false_inv lo hi v :
  range_flag lo hi (map (to_numeric_cell parse_numeric) v) = false ->
  forall x, In x (map (to_numeric_cell parse_numeric) v) -> x = CNull \/ within lo hi x.
Proof.
  unfold range_flag; intros H x Hx; apply orb_false_iff in H as [Hlo Hhi].
  apply in_map_iff in Hx as (y & <- & Hy).
  destruct (num_of (to_numeric_cell parse_numeric y)) as [q|] eqn:Eq.
  - right; exists q; split; [exact Eq|]; split.
    + apply Qnot_lt_le; intros Hq.
      assert (E : existsb (flagged (lt_bound lo)) (map (to_numeric_cell parse_numeric) v) = true).
      { apply existsb_exists; exists (to_numeric_cell parse_numeric y).
        split; [apply in_map; exact Hy|].
        rewrite flagged_coerced, Eq; apply lt_bound_true; exact Hq. }
      congruence.
    + destruct hi as [h|]; [|exact I].
      apply Qnot_lt_le; intros Hq.
      assert (E : existsb (flagged (gt_bound h)) (map (to_numeric_cell parse_numeric) v) = true).
      { apply existsb_exists; exists (to_numeric_cell parse_numeric y).
        split; [apply in_map; exact Hy|].
        rewrite flagged_coerced, Eq; apply gt_bound_true; exact Hq. }
      congruence.
  - left; destruct y as [s|z|q|]; cbn in Eq |- *; try discriminate; try reflexivity.
    destruct (parse_numeric s); cbn in Eq; [discriminate | reflexivity].
Qed.

(** In Mode B, with every required column present, the call raises exactly
    when a column it reads ([gender], [Partner], [Dependents],
    [PhoneService], [Contract], [InternetService], [tenure],
    [MonthlyCharges], [TotalCharges]) occurs more than once. *)
Theorem fallback_raises_iff_duplicate df :
  (forall c, In c required_columns -> In c (columns df)) ->
  ((exists e d, validate_telco_data parse_numeric false df = Err e d) <->
   exists c, In c read_columns /\ (2 <= count_occ string_dec (columns df) c)%nat).
Proof.
  intros Hp; unfold validate_telco_data; cbv iota.
  assert (Hm : missing_columns df = []) by (apply missing_nil; exact Hp).
  split.
  - intros (e & d & H).
    destruct (existsb (fun c => Nat.leb 2 (count_occ string_dec (columns df) c)) read_columns)
      eqn:E.
    + apply existsb_exists in E as (c & Hc & Hle); apply Nat.leb_le in Hle; eauto.
    + exfalso.
      assert (Hs : forall c, In c read_columns -> single_of df c <> None).
      { intros c Hc; apply single_of_count.
        assert (H1 : (count_occ string_dec (columns df) c > 0)%nat)
          by (apply count_occ_In, Hp; cbn in Hc |- *; tauto).
        destruct (Nat.leb 2 (count_occ string_dec (columns df) c)) eqn:E2.
        - assert (E3 : existsb (fun c => Nat.leb 2 (count_occ string_dec (columns df) c))
                         read_columns = true) by (apply existsb_exists; eauto).
          congruence.
        - apply Nat.leb_gt in E2; lia. }
      rewrite (fallback_runs _ Hm Hs) in H; discriminate.
  - intros (c & Hc & H2).
    destruct (fallback_validate parse_numeric df) as [r d|e d] eqn:E; [|eauto].
    exfalso; destruct (fallback_cases _ _ _ E) as [(Hm' & _)|(_ & Hs & _)]; [contradiction|].
    pose proof (proj1 (single_of_count df c) (Hs c Hc)); lia.
Qed.

(** In Mode B, once every required column is present and no exception is
    raised, [tenure], [MonthlyCharges] and [TotalCharges] of the caller's
    dataset hold no string afterwards. *)
Theorem fallback_numeric_columns_no_strings df r d :
  validate_telco_data parse_numeric false df = Ok r d ->
  (forall c, In c required_columns -> In c (columns df)) ->
  forall c v x, In c numeric_columns -> In (c, v) d -> In x v -> forall s, x <> CStr s.
Proof.
  unfold validate_telco_data; cbv iota; intros H Hp c v x Hc Hin Hx s.
  destruct (fallback_cases _ _ _ H) as [(Hm & _)|(_ & Hs & _ & ->)];
    [exfalso; apply Hm, missing_nil, Hp|].
  assert (Hnum : forall c, In c numeric_columns -> single_of df c <> None)
    by (intros c' Hc'; apply Hs; cbn in Hc' |- *; tauto).
  pose proof (single_of_coerce_frame _ _ c numeric_columns_nodup Hnum) as E.
  rewrite (proj2 (mem_In c numeric_columns) Hc) in E.
  rewrite (single_unique _ _ _ _ E Hin) in Hx.
  apply in_map_iff in Hx as (y & <- & _); apply to_numeric_not_str.
Qed.

(** In Mode B, [passed=true] guarantees the rules on the dataset the call
    leaves: categorical values in their sets, and each [tenure],
    [MonthlyCharges] and [TotalCharges] cell null or a number in range. *)
Theorem fallback_pass_guarantees df f d :
  validate_telco_data parse_numeric false df = Ok (true, f) d ->
  (forall c vs id, In (c, vs, id) categorical_rules ->
     forall v x, In (c, v) d -> In x v -> isin vs x = true) /\
  (forall c lo hi id, In (c, lo, hi, id) range_rules ->
     forall v x, In (c, v) d -> In x v -> x = CNull \/ within lo hi x).
Proof.
  unfold validate_telco_data; cbv iota; intros H.
  destruct (fallback_cases _ _ _ H) as [(_ & Hr & _)|(_ & Hs & Hr & ->)]; [discriminate|].
  assert (Hff : fallback_failed parse_numeric df = [])
    by (apply fallback_result_fst; rewrite <- Hr; reflexivity).
  destruct (fallback_failed_nil_inv _ Hff) as [Hcat Hrange].
  assert (Hnum : forall c, In c numeric_columns -> single_of df c <> None)
    by (intros c' Hc'; apply Hs; cbn in Hc' |- *; tauto).
  pose proof (fun c => single_of_coerce_frame _ _ c numeric_columns_nodup Hnum) as Hsd.
  split.
  - intros c vs id Hr' v x Hin Hx.
    pose proof (Hcat _ _ _ Hr') as Hall.
    assert (Hc : In c read_columns /\ mem c numeric_columns = false)
      by (in_cases Hr'; inversion Hr'; subst; (split; [solve_in | reflexivity])).
    destruct Hc as [Hc Hnm].
    destruct (single_of df c) as [u|] eqn:Eu; [|exfalso; exact (Hs c Hc Eu)].
    pose proof (Hsd c) as Ed; rewrite Hnm, Eu in Ed; cbv iota in Ed.
    rewrite (single_unique _ _ _ _ Ed Hin) in Hx.
    unfold all_in, column_or_nil in Hall; rewrite Eu in Hall.
    rewrite forallb_forall in Hall; exact (Hall x Hx).
  - intros c lo hi id Hr' v x Hin Hx.
    pose proof (Hrange _ _ _ _ Hr') as Hfl.
    assert (Hc : mem c numeric_columns = true)
      by (in_cases Hr'; inversion Hr'; subst; reflexivity).
    pose proof (Hsd c) as Ed; rewrite Hc in Ed; cbv iota in Ed.
    rewrite (single_unique _ _ _ _ Ed Hin) in Hx.
    exact (range_flag_false_inv _ _ _ Hfl _ Hx).
Qed.

(** * Further properties of Mode A *)

Lemma getitem_err df c : single_of df c = None -> exists e, getitem c df = Err e df.
Proof.
  unfold single_of, getitem; destruct (filter _ df) as [|[n w] [|? ?]]; intros H;
    try discriminate; eexists; reflexivity.
Qed.

Lemma interactive_err es df e :
  In e es -> (exists err, eval_expectation e df = Err err df) ->
  exists err, run_interactive es df = Err err df.
Proof.
  induction es as [|e0 rest IH]; intros He Herr; [destruct He|].
  cbn [run_interactive]; unfold bind; cbv beta.
  pose proof (read_only_eval e0 df) as R.
  destruct He as [<-|He].
  - destruct Herr as (err & Herr); rewrite Herr; eauto.
  - destruct (eval_expectation e0 df) as [b d|err d]; cbn in R; subst d;
      [apply IH; assumption | eauto].
Qed.

Lemma ge_validate_err df :
  (exists err, run_interactive telco_suite df = Err err df) ->
  exists err, ge_validate df = Err err df.
Proof.
  intros (err & H); exists err; unfold ge_validate, bind; cbv beta; rewrite H; reflexivity.
Qed.

Lemma map_checked_none {A} (f : A -> option bool) l x :
  In x l -> f x = None -> map_checked f l = None.
Proof.
  induction l as [|y rest IH]; intros Hx Hf; [destruct Hx|]; cbn.
  destruct Hx as [->|Hx]; [rewrite Hf; reflexivity|].
  rewrite (IH Hx Hf); destruct (f y); reflexivity.
Qed.

Lemma interactive_ok es df u d :
  run_interactive es df = Ok u d ->
  forall e, In e es -> exists b, eval_expectation e df = Ok b df.
Proof.
  revert u d; induction es as [|e0 rest IH]; intros u d H e He; [destruct He|].
  cbn [run_interactive] in H; unfold bind in H; cbv beta in H.
  pose proof (read_only_eval e0 df) as R.
  destruct (eval_expectation e0 df) as [b d0|err d0] eqn:E; cbn in R; subst d0; [|discriminate].
  destruct He as [<-|He]; [exists b; exact E | exact (IH _ _ H e He)].
Qed.

Lemma eval_caught_value e df :
  eval_caught e df = Ok (expectation_type e, match eval_expectation e df with Ok b _ => b | Err _ _ => false end) df.
Proof.
  unfold eval_caught; pose proof (read_only_eval e df) as R.
  destruct (eval_expectation e df); cbn in R; subst; reflexivity.
Qed.

(** [validate()] in closed form: an exception is a failed result. *)
Lemma validate_suite_closed es df :
  validate_suite es df = Ok (map (fun e => (expectation_type e, match eval_expectation e df with Ok b _ => b | Err _ _ => false end)) es) df.
Proof.
  induction es as [|e rest IH]; [reflexivity|].
  cbn [validate_suite]; rewrite (bind_ok _ _ _ _ _ (eval_caught_value e df)); cbv beta.
  rewrite (bind_ok _ _ _ _ _ IH); reflexivity.
Qed.

Lemma suite_forallb df l :
  forallb snd (map (fun e => (expectation_type e, match eval_expectation e df with Ok b _ => b | Err _ _ => false end)) l)
  = forallb (fun e => match eval_expectation e df with Ok b _ => b | Err _ _ => false end) l.
Proof. induction l as [|e l IH]; cbn [map forallb snd]; [reflexivity | rewrite IH; reflexivity]. Qed.

Lemma suite_failed df l :
  map fst (filter (fun r => negb (snd r)) (map (fun e => (expectation_type e, match eval_expectation e df with Ok b _ => b | Err _ _ => false end)) l))
  = map expectation_type (filter (fun e => negb (match eval_expectation e df with Ok b _ => b | Err _ _ => false end)) l).
Proof.
  induction l as [|e l IH]; cbn [map filter fst snd]; [reflexivity|].
  destruct (eval_expectation e df) as [[|] ?|? ?]; cbn [negb map fst]; rewrite IH; reflexivity.
Qed.

Lemma first_occurrences_in_acc ks acc k :
  In k acc \/ In k ks ->
  In k (fold_left (fun acc k0 => if mem k0 acc then acc else acc ++ [k0]) ks acc).
Proof.
  revert acc; induction ks as [|k0 rest IH]; intros acc H; cbn [fold_left].
  - destruct H as [H|[]]; exact H.
  - apply IH; destruct H as [H|[->|H]].
    + left; destruct (mem k0 acc); [exact H | apply in_app_iff; left; exact H].
    + left; destruct (mem k acc) eqn:E;
        [apply mem_In; exact E | apply in_app_iff; right; left; reflexivity].
    + right; exact H.
Qed.

Lemma group_by_column_complete es e : In e es -> In e (group_by_column es).
Proof.
  intros He; unfold group_by_column; apply in_flat_map.
  exists (expectation_column e); split.
  - unfold first_occurrences; apply first_occurrences_in_acc; right; apply in_map; exact He.
  - apply filter_In; split; [exact He | apply String.eqb_refl].
Qed.

(** Mode A in closed form, when it does not raise. *)
Lemma ge_ok_parts df p f d :
  ge_validate df = Ok (p, f) d ->
  d = df /\ (forall e, In e telco_suite -> exists b, eval_expectation e df = Ok b df) /\
  (p, f) = if forallb (fun e => match eval_expectation e df with Ok b _ => b | Err _ _ => false end) (group_by_column telco_suite)
           then (true, [])
           else (false, map expectation_type
                          (filter (fun e => negb (match eval_expectation e df with Ok b _ => b | Err _ _ => false end)) (group_by_column telco_suite))).
Proof.
  intros H; split; [exact (ge_validate_frame _ _ _ H)|].
  unfold ge_validate in H; apply bind_inv in H as (u & d1 & Hi & H).
  pose proof (read_only_interactive telco_suite df) as R; rewrite Hi in R; cbn in R; subst d1.
  split; [exact (interactive_ok _ _ _ _ Hi)|].
  cbv beta in H; rewrite (bind_ok _ _ _ _ _ (validate_suite_closed _ df)) in H.
  cbv beta zeta in H; rewrite suite_forallb, suite_failed in H.
  revert H; remember (group_by_column telco_suite) as G eqn:HG.
  destruct (forallb (fun e => match eval_expectation e df with Ok b _ => b | Err _ _ => false end) G);
    intros H; cbv [ret] in H; injection H as Hp Hf _; rewrite <- Hp, <- Hf; reflexivity.
Qed.

Lemma count_true_le {A} (f : A -> bool) l : (count_true (map f l) <= length l)%nat.
Proof. unfold count_true; induction l as [|x l IH]; cbn; [lia|]. destruct (f x); cbn; lia. Qed.

Lemma count_true_lt {A} (f : A -> bool) l x :
  In x l -> f x = false -> (count_true (map f l) < length l)%nat.
Proof.
  induction l as [|y l IH]; intros Hx Hf; [destruct Hx|].
  pose proof (count_true_le f l) as Hle; unfold count_true in *; cbn.
  destruct Hx as [->|Hx].
  - rewrite Hf; lia.
  - specialize (IH Hx Hf); destruct (f y); cbn; lia.
Qed.

Lemma filter_app_absent (df extra : DataFrame) c :
  ~ In c (columns extra) ->
  filter (fun p => String.eqb (fst p) c) (df ++ extra) = filter (fun p => String.eqb (fst p) c) df.
Proof. intros H; rewrite filter_app, (filter_named_absent extra c H), app_nil_r; reflexivity. Qed.

Lemma single_of_app df extra c :
  ~ In c (columns extra) -> single_of (df ++ extra) c = single_of df c.
Proof. intros H; unfold single_of; rewrite filter_app_absent by exact H; reflexivity. Qed.

Lemma column_or_nil_app df extra c :
  ~ In c (columns extra) -> column_or_nil (df ++ extra) c = column_or_nil df c.
Proof. intros H; unfold column_or_nil; rewrite single_of_app by exact H; reflexivity. Qed.

Lemma getitem_app df extra c :
  ~ In c (columns extra) ->
  getitem c (df ++ extra)
  = match getitem c df with Ok v _ => Ok v (df ++ extra) | Err e _ => Err e (df ++ extra) end.
Proof.
  intros H; unfold getitem; rewrite filter_app_absent by exact H.
  destruct (filter _ df) as [|[n w] [|? ?]]; reflexivity.
Qed.

Lemma mem_columns_app df extra c :
  ~ In c (columns extra) -> mem c (columns (df ++ extra)) = mem c (columns df).
Proof.
  intros H; unfold columns; rewrite map_app; unfold mem; rewrite existsb_app.
  replace (existsb (String.eqb c) (map fst extra)) with false; [apply orb_false_r|].
  symmetry; apply not_true_is_false; intros E; apply H; apply mem_In; exact E.
Qed.

Lemma missing_columns_app df extra :
  (forall c, In c (columns extra) -> ~ In c required_columns) ->
  missing_columns (df ++ extra) = missing_columns df.
Proof.
  intros Hx; unfold missing_columns; apply filter_ext_in; intros c Hc.
  rewrite mem_columns_app; [reflexivity|]. intros Hin; exact (Hx c Hin Hc).
Qed.

(** An expectation on columns [extra] does not name reads the same on
    [df ++ extra]. *)
Lemma eval_app e df extra :
  match e with
  | expect_column_pair_values_A_to_be_greater_than_B a b _ _ =>
      ~ In a (columns extra) /\ ~ In b (columns extra)
  | _ => ~ In (expectation_column e) (columns extra)
  end ->
  eval_expectation e (df ++ extra)
  = match eval_expectation e df with
    | Ok b _ => Ok b (df ++ extra)
    | Err x _ => Err x (df ++ extra)
    end.
Proof.
  destruct e as [c|c|c vs|c lo hi|a b oe m]; cbn [expectation_column eval_expectation]; intros Hc.
  - unfold bind, get, ret; cbv beta; rewrite mem_columns_app by exact Hc; reflexivity.
  - unfold bind, ret; rewrite (getitem_app df extra c Hc).
    destruct (getitem c df); reflexivity.
  - unfold bind, ret; rewrite (getitem_app df extra c Hc).
    destruct (getitem c df); reflexivity.
  - unfold bind, ret, lift_type, raise; rewrite (getitem_app df extra c Hc).
    destruct (getitem c df) as [v d|x d]; [|reflexivity].
    cbv beta iota zeta.
    match goal with |- context [map_checked ?f ?l] => destruct (map_checked f l) end;
      reflexivity.
  - destruct Hc as [Ha Hb]; unfold bind, ret, lift_type, raise.
    rewrite (getitem_app df extra a Ha).
    destruct (getitem a df) as [va d|x d] eqn:Ea; [|reflexivity].
    pose proof (read_only_getitem a df) as R; rewrite Ea in R; cbn in R; subst d.
    cbv beta iota. rewrite (getitem_app df extra b Hb).
    destruct (getitem b df) as [vb d|x d] eqn:Eb; [|reflexivity].
    pose proof (read_only_getitem b df) as R; rewrite Eb in R; cbn in R; subst d.
    cbv beta iota zeta.
    match goal with |- context [map_checked ?f ?l] => destruct (map_checked f l) end;
      reflexivity.
Qed.

Lemma suite_cols extra e :
  (forall c, In c required_columns -> ~ In c (columns extra)) ->
  In e telco_suite ->
  match e with
  | expect_column_pair_values_A_to_be_greater_than_B a b _ _ =>
      ~ In a (columns extra) /\ ~ In b (columns extra)
  | _ => ~ In (expectation_column e) (columns extra)
  end.
Proof. intros Hn He; in_cases He; subst e; cbn; try split; apply Hn; solve_in. Qed.

Lemma interactive_app es df extra :
  (forall c, In c required_columns -> ~ In c (columns extra)) ->
  (forall e, In e es -> In e telco_suite) ->
  run_interactive es (df ++ extra)
  = match run_interactive es df with
    | Ok u _ => Ok u (df ++ extra)
    | Err x _ => Err x (df ++ extra)
    end.
Proof.
  intros Hn; induction es as [|e rest IH]; intros Hes; [reflexivity|].
  cbn [run_interactive]; unfold bind; cbv beta.
  rewrite (eval_app e df extra (suite_cols _ _ Hn (Hes e (or_introl eq_refl)))).
  destruct (eval_expectation e df) as [b d|x d] eqn:E; [|reflexivity].
  pose proof (read_only_eval e df) as R; rewrite E in R; cbn in R; subst d.
  cbv beta iota; apply IH; intros e' He'; apply Hes; right; exact He'.
Qed.

Lemma val_app e df extra :
  (forall c, In c required_columns -> ~ In c (columns extra)) -> In e telco_suite ->
  match eval_expectation e (df ++ extra) with Ok b _ => b | Err _ _ => false end
  = match eval_expectation e df with Ok b _ => b | Err _ _ => false end.
Proof.
  intros Hn He; rewrite (eval_app _ _ _ (suite_cols _ _ Hn He)).
  destruct (eval_expectation e df); reflexivity.
Qed.

Lemma ge_app df extra r :
  (forall c, In c required_columns -> ~ In c (columns extra)) ->
  ge_validate df = Ok r df -> ge_validate (df ++ extra) = Ok r (df ++ extra).
Proof.
  intros Hn H; unfold ge_validate in *.
  apply bind_inv in H as (u & d1 & Hi & H).
  pose proof (read_only_interactive telco_suite df) as R; rewrite Hi in R; cbn in R; subst d1.
  assert (Hi' : run_interactive telco_suite (df ++ extra) = Ok u (df ++ extra))
    by (rewrite (interactive_app _ _ _ Hn (fun e He => He)), Hi; reflexivity).
  rewrite (bind_ok _ _ _ _ _ Hi'); cbv beta in H |- *.
  rewrite (bind_ok _ _ _ _ _ (validate_suite_closed _ df)) in H.
  rewrite (bind_ok _ _ _ _ _ (validate_suite_closed _ (df ++ extra))).
  cbv beta zeta in H |- *.
  assert (Hm : map (fun e => (expectation_type e,
                 match eval_expectation e (df ++ extra) with Ok b _ => b | Err _ _ => false end))
                 (group_by_column telco_suite)
             = map (fun e => (expectation_type e, match eval_expectation e df with Ok b _ => b | Err _ _ => false end)) (group_by_column telco_suite)).
  { apply map_ext_in; intros e He.
    rewrite (val_app e df extra Hn (group_by_column_incl _ _ He)); reflexivity. }
  rewrite Hm.
  revert H; remember (group_by_column telco_suite) as G eqn:HG.
  destruct (forallb snd (map (fun e => (expectation_type e, match eval_expectation e df with Ok b _ => b | Err _ _ => false end)) G));
    intros H; cbv [ret] in *; injection H as <-; reflexivity.
Qed.

(** ** Columns the fallback does not read *)

Lemma ignores_ret {A} extra (a : A) : ignores_suffix extra (ret a).
Proof. intros df; reflexivity. Qed.

Lemma ignores_raise {A} extra e : ignores_suffix (A := A) extra (raise e).
Proof. intros df; reflexivity. Qed.

Lemma ignores_bind {A B} extra (m : M A) (k : A -> M B) :
  ignores_suffix extra m -> (forall a, ignores_suffix extra (k a)) ->
  ignores_suffix extra (bind m k).
Proof.
  intros Hm Hk df; unfold bind; rewrite Hm.
  destruct (m df) as [a d|e d]; [apply Hk | reflexivity].
Qed.

Lemma ignores_getitem extra c :
  ~ In c (columns extra) -> ignores_suffix extra (getitem c).
Proof.
  intros H df; rewrite (getitem_app df extra c H).
  pose proof (read_only_getitem c df) as R.
  destruct (getitem c df); cbn in R; subst; reflexivity.
Qed.

Lemma ignores_series_any extra p v : ignores_suffix extra (series_any p v).
Proof. unfold series_any; destruct (cmp_series p v); [apply ignores_ret | apply ignores_raise]. Qed.

Lemma ignores_check_yes_no extra cols f :
  (forall c, In c cols -> ~ In c (columns extra)) ->
  ignores_suffix extra (check_yes_no cols f).
Proof.
  revert f; induction cols as [|c rest IH]; intros f Hc; cbn [check_yes_no];
    [apply ignores_ret|].
  apply ignores_bind; [apply ignores_getitem, Hc; left; reflexivity|].
  intros v; apply IH; intros c' H'; apply Hc; right; exact H'.
Qed.

Lemma set_column_app df extra c v :
  In c (columns df) -> ~ In c (columns extra) ->
  set_column (df ++ extra) c v = set_column df c v ++ extra.
Proof.
  intros Hin Hn; unfold set_column.
  rewrite (mem_columns_app df extra c Hn), (proj2 (mem_In c (columns df)) Hin), map_app.
  f_equal; transitivity (map (fun p => p) extra); [|apply map_id].
  apply map_ext_in; intros [n w] Hw; cbn [fst].
  destruct (String.eqb_spec n c) as [->|]; [|reflexivity].
  exfalso; apply Hn; exact (in_map fst _ _ Hw).
Qed.

Lemma ignores_coerce_columns extra cols :
  (forall c, In c cols -> ~ In c (columns extra)) ->
  ignores_suffix extra (coerce_columns parse_numeric cols).
Proof.
  induction cols as [|c rest IH]; intros Hc df; cbn [coerce_columns]; [reflexivity|].
  assert (Hn : ~ In c (columns extra)) by (apply Hc; left; reflexivity).
  unfold bind at 1 3; rewrite (getitem_app df extra c Hn).
  destruct (getitem c df) as [v d|e d] eqn:E.
  - apply getitem_ok in E as [-> E].
    assert (Hin : In c (columns df)) by exact (in_map fst _ _ (single_in _ _ _ E)).
    unfold bind, setitem; rewrite (set_column_app _ _ _ _ Hin Hn).
    apply IH; intros c' H'; apply Hc; right; exact H'.
  - pose proof (read_only_getitem c df) as R; rewrite E in R; cbn in R; subst d.
    reflexivity.
Qed.

(** One step of the proof that a computation ignores the columns [extra]. *)
Ltac ignores_step Hn :=
  match goal with
  | |- ignores_suffix _ (bind _ _) => apply ignores_bind; [|intros ?; cbv beta]
  | |- ignores_suffix _ (ret _) => apply ignores_ret
  | |- ignores_suffix _ (getitem _) => apply ignores_getitem, Hn; solve_in
  | |- ignores_suffix _ (series_any _ _) => apply ignores_series_any
  | |- ignores_suffix _ (check_yes_no _ _) =>
      apply ignores_check_yes_no; let c := fresh "c" in let H := fresh "H" in
      intros c H; apply Hn; in_cases H; subst c; solve_in
  | |- ignores_suffix _ (coerce_columns _ _) =>
      apply ignores_coerce_columns; let c := fresh "c" in let H := fresh "H" in
      intros c H; apply Hn; in_cases H; subst c; solve_in
  | |- ignores_suffix _ (if ?b then _ else _) => destruct b
  | |- ignores_suffix _ (match ?l with _ => _ end) => destruct l
  end.

Lemma fallback_app df extra :
  (forall c, In c (columns extra) -> ~ In c required_columns) ->
  fallback_validate parse_numeric (df ++ extra)
  = match fallback_validate parse_numeric df with
    | Ok r d => Ok r (d ++ extra)
    | Err e d => Err e (d ++ extra)
    end.
Proof.
  intros Hx.
  assert (Hn : forall c, In c required_columns -> ~ In c (columns extra))
    by (intros c Hc Hin; exact (Hx c Hin Hc)).
  unfold fallback_validate.
  rewrite (bind_ok get _ (df ++ extra) (df ++ extra) (df ++ extra) eq_refl),
    (bind_ok get _ df df df eq_refl); cbv beta.
  rewrite (missing_columns_app df extra Hx).
  destruct (missing_columns df); [|reflexivity].
  cbv zeta.
  match goal with |- ?m (df ++ extra) = _ =>
    enough (Hc : ignores_suffix extra m) by exact (Hc df) end.
  repeat ignores_step Hn.
Qed.

Lemma ge_app_all df extra :
  (forall c, In c required_columns -> ~ In c (columns extra)) ->
  ge_validate (df ++ extra)
  = match ge_validate df with
    | Ok r d => Ok r (d ++ extra)
    | Err e d => Err e (d ++ extra)
    end.
Proof.
  intros Hn; unfold ge_validate.
  assert (HinG : forall e, In e (group_by_column telco_suite) -> In e telco_suite)
    by apply group_by_column_incl.
  remember (group_by_column telco_suite) as G eqn:HG; clear HG.
  unfold bind.
  rewrite (interactive_app _ _ _ Hn (fun e He => He)).
  pose proof (read_only_interactive telco_suite df) as Ri.
  destruct (run_interactive telco_suite df) as [u d|x d]; cbn in Ri; subst d; [|reflexivity].
  rewrite !validate_suite_closed; cbv beta zeta.
  assert (Hm : map (fun e => (expectation_type e,
                 match eval_expectation e (df ++ extra) with Ok b _ => b | Err _ _ => false end)) G
             = map (fun e => (expectation_type e,
                 match eval_expectation e df with Ok b _ => b | Err _ _ => false end)) G).
  { apply map_ext_in; intros e He; rewrite (val_app e df extra Hn (HinG _ He)); reflexivity. }
  rewrite Hm; destruct (forallb _ _); reflexivity.
Qed.

(** In Mode A, a required column that is absent makes the call raise (its
    first read, by an interactive expectation, is not caught), and the
    dataset is left as it was. *)
Theorem ge_raises_on_missing_required_column df c :
  In c required_columns -> ~ In c (columns df) ->
  exists e, validate_telco_data parse_numeric true df = Err e df.
Proof.
  intros Hc Hn; unfold validate_telco_data; cbv iota.
  assert (Hs : single_of df c = None).
  { destruct (single_of df c) as [v|] eqn:E; [|reflexivity].
    exfalso; apply Hn; exact (in_map fst _ _ (single_in _ _ _ E)). }
  destruct (getitem_err _ _ Hs) as (err & Herr).
  apply ge_validate_err.
  assert (He : exists e, In e telco_suite /\ exists err, eval_expectation e df = Err err df).
  { in_cases Hc; subst c;
      first
        [ fails_at_read (expect_column_values_to_not_be_null "customerID") err Herr
        | fails_at_read (expect_column_values_to_be_in_set "gender" ["Male"; "Female"]) err Herr
        | fails_at_read (expect_column_values_to_be_in_set "Partner" ["Yes"; "No"]) err Herr
        | fails_at_read (expect_column_values_to_be_in_set "Dependents" ["Yes"; "No"]) err Herr
        | fails_at_read (expect_column_values_to_be_in_set "PhoneService" ["Yes"; "No"]) err Herr
        | fails_at_read (expect_column_values_to_be_in_set "InternetService" ["DSL"; "Fiber optic"; "No"]) err Herr
        | fails_at_read (expect_column_values_to_be_in_set "Contract" ["Month-to-month"; "One year"; "Two year"]) err Herr
        | fails_at_read (expect_column_values_to_not_be_null "tenure") err Herr
        | fails_at_read (expect_column_values_to_not_be_null "MonthlyCharges") err Herr
        | fails_at_read (expect_column_values_to_be_between "TotalCharges" (Some 0) None) err Herr ]. }
  destruct He as (e & Hin & Herr'); exact (interactive_err _ _ _ Hin Herr').
Qed.

(** In Mode A, a string in [tenure], [MonthlyCharges] or [TotalCharges]
    (even one that reads as a number) makes the call raise. *)
Theorem ge_raises_on_string_in_numeric_column df c v s :
  In c numeric_columns -> In (c, v) df -> In (CStr s) v ->
  exists e, validate_telco_data parse_numeric true df = Err e df.
Proof.
  intros Hc Hin Hs; unfold validate_telco_data; cbv iota.
  apply ge_validate_err.
  assert (He : exists lo hi, In (expect_column_values_to_be_between c lo hi) telco_suite)
    by (in_cases Hc; subst c; do 2 eexists; solve_in).
  destruct He as (lo & hi & He); apply (interactive_err _ _ _ He).
  destruct (single_of df c) as [w|] eqn:Ew.
  - rewrite (single_unique _ _ _ _ Ew Hin) in Hs.
    exists TypeError; cbn [eval_expectation]; unfold bind, lift_type, raise, ret; cbv beta.
    rewrite (getitem_single _ _ _ Ew); cbv beta iota zeta.
    rewrite (map_checked_none _ _ (CStr s));
      [reflexivity | apply filter_In; split; [exact Hs | reflexivity] | reflexivity].
  - destruct (getitem_err _ _ Ew) as (err & Herr); exists err.
    cbn [eval_expectation]; unfold bind; cbv beta; rewrite Herr; reflexivity.
Qed.

(** In Mode A, when the call returns, [passed] is true exactly when every
    expectation of the suite holds on the dataset. *)
Theorem ge_passes_iff_all_expectations df p f d :
  validate_telco_data parse_numeric true df = Ok (p, f) d ->
  (p = true <-> forall e, In e telco_suite -> eval_expectation e df = Ok true df).
Proof.
  unfold validate_telco_data; cbv iota; intros H.
  destruct (ge_ok_parts _ _ _ _ H) as (_ & Hok & Hr).
  revert Hr; remember (group_by_column telco_suite) as G eqn:HG.
  assert (HinG : forall e, In e G -> In e telco_suite) by (subst G; apply group_by_column_incl).
  assert (HGin : forall e, In e telco_suite -> In e G) by (subst G; apply group_by_column_complete).
  clear HG.
  destruct (forallb (fun e => match eval_expectation e df with Ok b _ => b | Err _ _ => false end) G) eqn:E; intros Hr;
    cbv iota in Hr; injection Hr as -> ->.
  - split; [intros _|reflexivity].
    intros e He; rewrite forallb_forall in E; specialize (E e (HGin _ He)).
    destruct (Hok e He) as (b & Hb); rewrite Hb in E |- *; cbn in E; subst b; reflexivity.
  - split; [discriminate|]; intros Hall; exfalso.
    destruct (forallb_false_ex _ _ E) as (e & HeG & Hv); cbv beta in Hv.
    rewrite (Hall e (HinG _ HeG)) in Hv; discriminate.
Qed.

(** In Mode A, when the call returns, [failed_expectations] holds exactly
    the expectation types of the suite's expectations that do not hold. *)
Theorem ge_failed_lists_failing_expectations df p f d :
  validate_telco_data parse_numeric true df = Ok (p, f) d ->
  forall x, In x f <-> exists e, In e telco_suite /\ eval_expectation e df = Ok false df /\
                                 expectation_type e = x.
Proof.
  unfold validate_telco_data; cbv iota; intros H x.
  destruct (ge_ok_parts _ _ _ _ H) as (_ & Hok & Hr).
  revert Hr; remember (group_by_column telco_suite) as G eqn:HG.
  assert (HinG : forall e, In e G -> In e telco_suite) by (subst G; apply group_by_column_incl).
  assert (HGin : forall e, In e telco_suite -> In e G) by (subst G; apply group_by_column_complete).
  clear HG.
  destruct (forallb (fun e => match eval_expectation e df with Ok b _ => b | Err _ _ => false end) G) eqn:E; intros Hr;
    cbv iota in Hr; injection Hr as -> ->.
  - split; [intros []|].
    intros (e & He & Hf & _); rewrite forallb_forall in E.
    specialize (E e (HGin _ He)); cbv beta in E.
    rewrite Hf in E; discriminate.
  - split.
    + intros Hx; apply in_map_iff in Hx as (e & <- & He); apply filter_In in He as [HeG Hv].
      exists e; split; [exact (HinG _ HeG)|]; split; [|reflexivity].
      destruct (Hok e (HinG _ HeG)) as (b & Hb).
      rewrite Hb in Hv |- *; destruct b; cbn in Hv; [discriminate | reflexivity].
    + intros (e & He & Hf & <-); apply in_map; apply filter_In.
      split; [exact (HGin _ He)|]; rewrite Hf; reflexivity.
Qed.

(** * Properties of both modes *)

(** Columns the validator does not require change nothing: appended to a
    dataset, they leave the outcome as it was, a result or the same
    exception, and the dataset afterwards is the same with those columns
    still appended. *)
Theorem validate_ignores_extra_columns ge df extra :
  (forall c, In c (columns extra) -> ~ In c required_columns) ->
  validate_telco_data parse_numeric ge (df ++ extra)
  = match validate_telco_data parse_numeric ge df with
    | Ok r d => Ok r (d ++ extra)
    | Err e d => Err e (d ++ extra)
    end.
Proof.
  unfold validate_telco_data; destruct ge; intros Hx.
  - apply ge_app_all; intros c Hc Hin; exact (Hx c Hin Hc).
  - exact (fallback_app _ _ Hx).
Qed.

(** A dataset with every required column, no column name twice and no row
    passes in both modes, and is left as it was. *)
Theorem validate_accepts_empty_dataset ge df :
  NoDup (columns df) ->
  (forall c, In c required_columns -> In c (columns df)) ->
  (forall c v, In (c, v) df -> v = []) ->
  validate_telco_data parse_numeric ge df = Ok (true, []) df.
Proof.
  intros Hnd Hp Hempty; unfold validate_telco_data; destruct ge.
  - apply model_ge.
    split; [exact Hnd|]; split.
    { intros c v c' v' H1 H2; rewrite (Hempty _ _ H1), (Hempty _ _ H2); reflexivity. }
    split; [exact Hp|]; split.
    { intros v x Hin Hx; rewrite (Hempty _ _ Hin) in Hx; destruct Hx. }
    split.
    { intros c vs id _ v x Hin Hx; rewrite (Hempty _ _ Hin) in Hx; destruct Hx. }
    split.
    { intros c lo hi id _ v x Hin Hx; rewrite (Hempty _ _ Hin) in Hx; destruct Hx. }
    intros vt vm Ht _; rewrite (Hempty _ _ Ht); cbn; lia.
  - rewrite (fallback_present _ Hnd Hp); unfold fallback_result.
    rewrite (fallback_failed_nil _ Hnd Hp).
    2: { intros c vs id _ v x Hin Hx; rewrite (Hempty _ _ Hin) in Hx; destruct Hx. }
    2: { intros c lo hi id _ v x Hin Hx; rewrite (Hempty _ _ Hin) in Hx; destruct Hx. }
    f_equal; apply coerce_frame_fixed; intros c Hc.
    assert (Hin : In c (columns df)) by (apply Hp; cbn in Hc |- *; tauto).
    unfold columns in Hin; apply in_map_iff in Hin as ([c' v] & Heq & Hin); cbn in Heq; subst c'.
    exists v; rewrite (Hempty _ _ Hin); split; [|reflexivity].
    rewrite <- (Hempty _ _ Hin); exact (nodup_single _ _ _ Hnd Hin).
Qed.

End Proofs.

(** * Witnesses and counterexamples

    The theorems above, applied to the spec's scenarios with the decimal
    parser [decimal_of_string]. *)

(** C1 on scenario 1 without [TotalCharges]. *)
Lemma fallback_missing_column_short_circuit_witness :
  validate_telco_data decimal_of_string false missing_column_df
  = Ok (false, ["missing_required_columns"]) missing_column_df.
Proof.
  apply fallback_missing_column_short_circuit; exists "TotalCharges"; split;
    [solve_in | intros H; in_cases H; discriminate].
Defined.

(** C2 on scenario 1, in Mode A and in Mode B. *)
Lemma validate_accepts_data_model_witness :
  (exists d, validate_telco_data decimal_of_string true scenario1 = Ok (true, []) d) /\
  (exists d, validate_telco_data decimal_of_string false scenario1 = Ok (true, []) d).
Proof.
  assert (Hm : satisfies_data_model scenario1).
  { split; [solve_nodup|]; split.
    { intros c v c' v' H1 H2; in_cases H1; in_cases H2; inversion H1; inversion H2; subst;
        reflexivity. }
    split; [solve_present|]; split.
    { intros v x Hin Hx; in_cases Hin; inversion Hin; subst; in_cases Hx; subst; discriminate. }
    split; [solve_categorical|]; split; [solve_range_cells solve_within|].
    intros vt vm H1 H2; in_cases H1; inversion H1; subst; in_cases H2; inversion H2; subst.
    apply Nat.leb_le; vm_compute; reflexivity. }
  split; apply validate_accepts_data_model; exact Hm.
Defined.

(** C3: Mode B does not leave the caller's dataset unchanged: scenario 1
    with [TotalCharges] as the string ["350.75"] comes back with the number
    350.75 in that column. *)
Lemma validate_frame_unchanged_counterexample :
  ~ (forall ge df r d, validate_telco_data decimal_of_string ge df = Ok r d -> d = df).
Proof.
  intros H.
  pose proof (H false string_charges_df (true, []) scenario1 ltac:(vm_compute; reflexivity))
    as E.
  vm_compute in E; discriminate.
Qed.

(** C4 (as amended) on scenario 5: 1 violation in 20 rows passes, 2 fail. *)
Lemma consistency_check_fraction_witness :
  eval_expectation consistency_expectation (charges_df one_in_twenty)
  = Ok true (charges_df one_in_twenty) /\
  eval_expectation consistency_expectation (charges_df two_in_twenty)
  = Ok false (charges_df two_in_twenty).
Proof.
  split.
  - destruct (consistency_check_fraction (charges_df one_in_twenty)
                (map fst one_in_twenty) (map snd one_in_twenty)
                ltac:(vm_compute; reflexivity) ltac:(vm_compute; reflexivity)
                ltac:(vm_compute; reflexivity))
      as (b & Hb & Hiff).
    rewrite Hb; f_equal; apply Hiff; right; apply Nat.leb_le; vm_compute; reflexivity.
  - destruct (consistency_check_fraction (charges_df two_in_twenty)
                (map fst two_in_twenty) (map snd two_in_twenty)
                ltac:(vm_compute; reflexivity) ltac:(vm_compute; reflexivity)
                ltac:(vm_compute; reflexivity))
      as (b & Hb & Hiff).
    rewrite Hb; f_equal; destruct b; [exfalso|reflexivity].
    destruct (proj1 Hiff eq_refl) as [H|H];
      [vm_compute in H; discriminate | apply Nat.leb_le in H; vm_compute in H; discriminate].
Defined.

(** C4: with a row where both charges are null, 19 of 21 rows (less than
    95%) satisfy [TotalCharges >= MonthlyCharges], and the check passes. *)
Lemma consistency_check_fraction_counterexample :
  eval_expectation consistency_expectation (charges_df one_in_twenty_and_empty_row)
  = Ok true (charges_df one_in_twenty_and_empty_row) /\
  (100 * length (filter row_consistent one_in_twenty_and_empty_row)
   < 95 * length one_in_twenty_and_empty_row)%nat.
Proof.
  split; [vm_compute; reflexivity | apply Nat.ltb_lt; vm_compute; reflexivity].
Qed.

(** C5 on scenario 1 with its charges as strings: the second call, on the
    coerced dataset, gives the same result. *)
Lemma validate_idempotent_witness :
  validate_telco_data decimal_of_string false scenario1 = Ok (true, []) scenario1.
Proof.
  apply (validate_idempotent decimal_of_string false string_charges_df).
  vm_compute; reflexivity.
Defined.

(** C6 on scenario 1 with a blank [TotalCharges]. *)
Lemma fallback_never_raises_witness :
  exists r d, validate_telco_data decimal_of_string false blank_charges_df = Ok r d.
Proof. apply fallback_never_raises; solve_nodup. Defined.

(** C7 on a dataset breaking five rules at once. *)
Lemma fallback_reports_every_violation_witness :
  exists passed failed d,
    validate_telco_data decimal_of_string false many_violations_df = Ok (passed, failed) d /\
    In "gender_invalid" failed /\ In "contract_invalid" failed /\
    In "tenure_range" failed /\ In "monthly_charges_range" failed /\
    In "total_charges_negative" failed.
Proof.
  destruct (fallback_reports_every_violation decimal_of_string many_violations_df)
    as (passed & failed & d & Hv & Hcat & Hrange); [solve_nodup | solve_present |].
  exists passed, failed, d; split; [exact Hv|].
  split; [apply (Hcat "gender" ["Male"; "Female"]); [solve_in|]
         ; eexists; exists (CStr "Other"); split; [solve_in | split; [solve_in | reflexivity]]|].
  split; [apply (Hcat "Contract" ["Month-to-month"; "One year"; "Two year"]); [solve_in|]
         ; eexists; exists (CStr "Three year"); split; [solve_in | split; [solve_in | reflexivity]]|].
  split; [apply (Hrange "tenure" 0 (Some 120)); [solve_in|]
         ; eexists; exists (CInt 130), (inject_Z 130);
           split; [solve_in | split; [solve_in | split; [reflexivity | right; vm_compute; reflexivity]]]|].
  split; [apply (Hrange "MonthlyCharges" 0 (Some 200)); [solve_in|]
         ; eexists; exists (CInt 250), (inject_Z 250);
           split; [solve_in | split; [solve_in | split; [reflexivity | right; vm_compute; reflexivity]]]|].
  apply (Hrange "TotalCharges" 0 None); [solve_in|].
  eexists; exists (CStr "-3"), (-3 # 1);
    split; [solve_in | split; [solve_in | split; [vm_compute; reflexivity | left; vm_compute; reflexivity]]].
Defined.

(** C8 on scenario 2. *)
Lemma fallback_gender_invalid_witness :
  exists failed d,
    validate_telco_data decimal_of_string false scenario2 = Ok (false, failed) d /\
    In "gender_invalid" failed.
Proof.
  apply fallback_gender_invalid; [solve_nodup | solve_present |].
  exists [CStr "Other"], (CStr "Other"); split; [solve_in | split; [left; reflexivity | reflexivity]].
Defined.

(** C10 on scenario 1 with a blank [TotalCharges]. *)
Lemma fallback_unparseable_is_null_witness :
  exists d,
    validate_telco_data decimal_of_string false blank_charges_df = Ok (true, []) d /\
    exists w, In ("TotalCharges", w) d /\ In CNull w.
Proof.
  destruct (fallback_unparseable_is_null decimal_of_string blank_charges_df) as (d & Hv & Hnull);
    [solve_nodup | solve_present | solve_categorical
    | solve_range_cells ltac:(first [left; solve_within | right; eexists; split; reflexivity])|].
  exists d; split; [exact Hv|].
  apply (Hnull "TotalCharges" [CStr " "] " "); [solve_in | solve_in | left; reflexivity | reflexivity].
Defined.

(** * Witnesses of the further properties *)

(** Mode B's identifiers in code order, on a dataset breaking five rules. *)
Lemma fallback_failed_in_code_order_witness :
  exists d,
    validate_telco_data decimal_of_string false many_violations_df = Ok (false, ["gender_invalid"; "contract_invalid"; "tenure_range";
                 "monthly_charges_range"; "total_charges_negative"]) d /\
    ["gender_invalid"; "contract_invalid"; "tenure_range";
                 "monthly_charges_range"; "total_charges_negative"] = filter (fun id => mem id ["gender_invalid"; "contract_invalid"; "tenure_range";
                 "monthly_charges_range"; "total_charges_negative"]) fallback_check_ids.
Proof.
  assert (H : validate_telco_data decimal_of_string false many_violations_df
              = Ok (false, ["gender_invalid"; "contract_invalid"; "tenure_range";
                 "monthly_charges_range"; "total_charges_negative"])
                  (coerce_frame decimal_of_string numeric_columns many_violations_df))
    by (vm_compute; reflexivity).
  exists (coerce_frame decimal_of_string numeric_columns many_violations_df); split;
    [exact H | exact (fallback_failed_in_code_order decimal_of_string _ _ _ _ H)].
Defined.

(** The missing column behind [missing_required_columns]. *)
Lemma fallback_missing_reported_iff_witness :
  exists c, In c required_columns /\ ~ In c (columns missing_column_df).
Proof.
  apply (proj1 (fallback_missing_reported_iff decimal_of_string missing_column_df false
                  ["missing_required_columns"] missing_column_df ltac:(vm_compute; reflexivity))).
  left; reflexivity.
Defined.

(** The value behind [contract_invalid]. *)
Lemma fallback_categorical_sound_witness :
  exists v x, In ("Contract", v) many_violations_df /\ In x v /\
    isin ["Month-to-month"; "One year"; "Two year"] x = false.
Proof.
  apply (fallback_categorical_sound decimal_of_string many_violations_df false ["gender_invalid"; "contract_invalid"; "tenure_range";
                 "monthly_charges_range"; "total_charges_negative"]
           (coerce_frame decimal_of_string numeric_columns many_violations_df) "Contract"
           ["Month-to-month"; "One year"; "Two year"] "contract_invalid");
    [vm_compute; reflexivity | solve_in | solve_in].
Defined.

(** The value behind [tenure_range]. *)
Lemma fallback_range_sound_witness :
  exists v x q, In ("tenure", v) many_violations_df /\ In x v /\
    num_of (to_numeric_cell decimal_of_string x) = Some q /\ (q < 0 \/ 120 < q).
Proof.
  apply (fallback_range_sound decimal_of_string many_violations_df false ["gender_invalid"; "contract_invalid"; "tenure_range";
                 "monthly_charges_range"; "total_charges_negative"]
           (coerce_frame decimal_of_string numeric_columns many_violations_df) "tenure"
           0 (Some 120) "tenure_range");
    [vm_compute; reflexivity | solve_in | solve_in].
Defined.

(** Mode B raises on scenario 1 with [gender] twice. *)
Lemma fallback_raises_iff_duplicate_witness :
  exists e d, validate_telco_data decimal_of_string false dup_gender_df = Err e d.
Proof.
  apply (proj2 (fallback_raises_iff_duplicate decimal_of_string dup_gender_df
                  ltac:(solve_present))).
  exists "gender"; split; [solve_in | apply Nat.leb_le; vm_compute; reflexivity].
Defined.

(** Scenario 1 with its charges as strings: no string left in
    [TotalCharges]. *)
Lemma fallback_numeric_columns_no_strings_witness :
  validate_telco_data decimal_of_string false string_charges_df = Ok (true, []) scenario1 /\
  CFloat (35075 # 100) <> CStr "350.75".
Proof.
  assert (H : validate_telco_data decimal_of_string false string_charges_df
              = Ok (true, []) scenario1) by (vm_compute; reflexivity).
  split; [exact H|].
  exact (fallback_numeric_columns_no_strings decimal_of_string string_charges_df (true, [])
           scenario1 H ltac:(solve_present) "TotalCharges" [CFloat (35075 # 100)]
           (CFloat (35075 # 100)) ltac:(solve_in) ltac:(solve_in) ltac:(left; reflexivity)
           "350.75").
Defined.

(** Scenario 1 with a blank [TotalCharges] passes; its [tenure] is in range. *)
Lemma fallback_pass_guarantees_witness :
  CInt 5 = CNull \/ within 0 (Some 120) (CInt 5).
Proof.
  exact (proj2 (fallback_pass_guarantees decimal_of_string blank_charges_df []
                  (scenario_df (CStr "Male") (CInt 5) (CFloat (7035 # 100)) CNull)
                  ltac:(vm_compute; reflexivity))
           "tenure" 0 (Some 120) "tenure_range" ltac:(solve_in) [CInt 5] (CInt 5)
           ltac:(solve_in) ltac:(left; reflexivity)).
Defined.

(** Mode A raises on scenario 1 without [TotalCharges]. *)
Lemma ge_raises_on_missing_required_column_witness :
  exists e, validate_telco_data decimal_of_string true missing_column_df = Err e missing_column_df.
Proof.
  apply (ge_raises_on_missing_required_column decimal_of_string missing_column_df "TotalCharges");
    [solve_in | intros H; in_cases H; discriminate].
Defined.

(** Mode A raises on scenario 1 with [TotalCharges] as the string
    ["350.75"], as in the Telco CSV. *)
Lemma ge_raises_on_string_in_numeric_column_witness :
  exists e, validate_telco_data decimal_of_string true string_charges_df = Err e string_charges_df.
Proof.
  apply (ge_raises_on_string_in_numeric_column decimal_of_string string_charges_df "TotalCharges"
           [CStr "350.75"] "350.75"); [solve_in | solve_in | left; reflexivity].
Defined.

(** Scenario 1 passes Mode A, so its consistency check holds. *)
Lemma ge_passes_iff_all_expectations_witness :
  eval_expectation consistency_expectation scenario1 = Ok true scenario1.
Proof.
  apply (proj1 (ge_passes_iff_all_expectations decimal_of_string scenario1 true [] scenario1
                  ltac:(vm_compute; reflexivity)) eq_refl).
  solve_in.
Defined.

(** Scenario 2 fails Mode A by an in-set expectation. *)
Lemma ge_failed_lists_failing_expectations_witness :
  exists e, In e telco_suite /\ eval_expectation e scenario2 = Ok false scenario2 /\
    expectation_type e = "expect_column_values_to_be_in_set".
Proof.
  apply (proj1 (ge_failed_lists_failing_expectations decimal_of_string scenario2 false
                  ["expect_column_values_to_be_in_set"] scenario2
                  ltac:(vm_compute; reflexivity) _)).
  left; reflexivity.
Defined.

(** A [SeniorCitizen] column appended to scenario 1 leaves Mode A's pass as
    it was, and to scenario 1 with [gender] twice leaves Mode B's exception. *)
Lemma validate_ignores_extra_columns_witness :
  validate_telco_data decimal_of_string true extra_column_df = Ok (true, []) extra_column_df /\
  validate_telco_data decimal_of_string false (dup_gender_df ++ [("SeniorCitizen", [CInt 0])])
  = Err (AmbiguousColumn "gender") (dup_gender_df ++ [("SeniorCitizen", [CInt 0])]).
Proof.
  assert (Hx : forall c, In c (columns [("SeniorCitizen", [CInt 0])]) -> ~ In c required_columns)
    by (intros c H H'; in_cases H; subst c; in_cases H'; discriminate).
  split.
  - unfold extra_column_df.
    rewrite (validate_ignores_extra_columns decimal_of_string true scenario1 _ Hx).
    vm_compute; reflexivity.
  - rewrite (validate_ignores_extra_columns decimal_of_string false dup_gender_df _ Hx).
    vm_compute; reflexivity.
Defined.

(** Every required column and no row, in both modes. *)
Lemma validate_accepts_empty_dataset_witness :
  validate_telco_data decimal_of_string true empty_df = Ok (true, []) empty_df /\
  validate_telco_data decimal_of_string false empty_df = Ok (true, []) empty_df.
Proof.
  split; apply validate_accepts_empty_dataset;
    [ solve_nodup | solve_present | intros c v H; in_cases H; inversion H; reflexivity
    | solve_nodup | solve_present | intros c v H; in_cases H; inversion H; reflexivity ].
Defined.
